(** * Pipeline manifest sha sync: bundle-generation/generate-sha-commits.py

    A shallow embedding of the reconciliation script.  The YAML
    configuration document and the JSON manifest are parsed documents
    ([value]); the configuration file on disk is a piece of explicit state
    that [update_yaml_field] reads, patches and writes back; Python
    exceptions are an error result.

    Scope of the data model: mapping keys are strings; scalars are null,
    booleans, integers and strings.  [yaml.safe_load], [yaml.dump] and
    [json.load] are taken as a round trip between a file and the document
    it holds, so a file is modelled by its document.  Two things the round
    trip does are not in the model: [yaml.dump] writes the keys of every
    mapping in sorted order, and a document loaded from a file with YAML
    anchors holds one object at several places.  The statements of what
    a write keeps of a whole document are therefore made with the
    relation [alike], which looks mappings up by key and lets a value
    change at every place that holds it. *)

From Stdlib Require Import List String Ascii ZArith Bool Lia Arith.
Import ListNotations.
Open Scope string_scope.
Open Scope list_scope.

(** ** Parsed documents *)

Set Warnings "-register-all".

Inductive value : Type :=
| VNone
| VBool (b : bool)
| VInt (z : Z)
| VStr (s : string)
| VList (l : list value)
| VDict (d : list (string * value)).

(** A Python dict with string keys, in insertion order. *)
Definition dict := list (string * value).

Inductive exn : Type :=
| TypeError
| AttributeError
| KeyError
| SystemExit (code : Z).

Inductive result (A : Type) : Type :=
| Ok (a : A)
| Raise (e : exn).
Arguments Ok {A} a.
Arguments Raise {A} e.

Definition rbind {A B} (r : result A) (k : A -> result B) : result B :=
  match r with
  | Ok a => k a
  | Raise e => Raise e
  end.

Notation "'let?' x ':=' r 'in' k" := (rbind r (fun x => k))
  (at level 10, x name, r at level 100, k at level 200).

(** ** Dict primitives *)

Fixpoint dict_lookup (k : string) (d : dict) : option value :=
  match d with
  | [] => None
  | (k', v) :: d' => if String.eqb k k' then Some v else dict_lookup k d'
  end.

Definition dict_mem (k : string) (d : dict) : bool :=
  match dict_lookup k d with Some _ => true | None => false end.

(** [d[k] = v]: overwrite in place when the key is there, append otherwise. *)
Fixpoint dict_set (k : string) (v : value) (d : dict) : dict :=
  match d with
  | [] => [(k, v)]
  | (k', v') :: d' =>
      if String.eqb k k' then (k', v) :: d' else (k', v') :: dict_set k v d'
  end.

Definition dict_keys (d : dict) : list string := map fst d.

(** ** Python operators on documents *)

(** [a == b].  Booleans compare as the integers 0 and 1, sequences
    element by element, dicts key by key whatever the order. *)
Fixpoint py_eq (a b : value) {struct a} : bool :=
  match a, b with
  | VNone, VNone => true
  | VBool x, VBool y => Bool.eqb x y
  | VBool x, VInt y => Z.eqb (Z.b2z x) y
  | VInt x, VBool y => Z.eqb x (Z.b2z y)
  | VInt x, VInt y => Z.eqb x y
  | VStr x, VStr y => String.eqb x y
  | VList l1, VList l2 =>
      (fix go (l1 l2 : list value) {struct l1} : bool :=
         match l1, l2 with
         | [], [] => true
         | x :: xs, y :: ys => py_eq x y && go xs ys
         | _, _ => false
         end) l1 l2
  | VDict d1, VDict d2 =>
      Nat.eqb (List.length d1) (List.length d2) &&
      (fix all (d : dict) {struct d} : bool :=
         match d with
         | [] => true
         | (k, v) :: r =>
             match dict_lookup k d2 with
             | Some v' => py_eq v v'
             | None => false
             end && all r
         end) d1
  | _, _ => false
  end.

Definition py_ne (a b : value) : bool := negb (py_eq a b).

(** [pat in s] on strings: substring test. *)
Fixpoint is_substring (pat s : string) : bool :=
  match s with
  | EmptyString => String.eqb pat EmptyString
  | String _ s' => String.prefix pat s || is_substring pat s'
  end.

(** [k in v] for a string [k]. *)
Definition py_in (k : string) (v : value) : result bool :=
  match v with
  | VDict d => Ok (dict_mem k d)
  | VList l => Ok (existsb (py_eq (VStr k)) l)
  | VStr s => Ok (is_substring k s)
  | _ => Raise TypeError
  end.

(** [v[k]] for a string [k]. *)
Definition py_getitem (v : value) (k : string) : result value :=
  match v with
  | VDict d =>
      match dict_lookup k d with
      | Some x => Ok x
      | None => Raise KeyError
      end
  | _ => Raise TypeError
  end.

(** [v[k] = x] for a string [k]. *)
Definition py_setitem (v : value) (k : string) (x : value) : result value :=
  match v with
  | VDict d => Ok (VDict (dict_set k x d))
  | _ => Raise TypeError
  end.

(** [v.get(k)] and [v.get(k, dflt)]: only dicts have the method. *)
Definition py_get_default (v : value) (k : string) (dflt : value)
  : result value :=
  match v with
  | VDict d =>
      match dict_lookup k d with
      | Some x => Ok x
      | None => Ok dflt
      end
  | _ => Raise AttributeError
  end.

Definition py_get (v : value) (k : string) : result value :=
  py_get_default v k VNone.

Fixpoint chars (s : string) : list value :=
  match s with
  | EmptyString => []
  | String c s' => VStr (String c EmptyString) :: chars s'
  end.

(** [for x in v]: the elements of a list, the keys of a dict, the
    characters of a string. *)
Definition py_iter (v : value) : result (list value) :=
  match v with
  | VList l => Ok l
  | VDict d => Ok (map VStr (dict_keys d))
  | VStr s => Ok (chars s)
  | _ => Raise TypeError
  end.

(** [isinstance(v, dict)] *)
Definition is_dict (v : value) : bool :=
  match v with VDict _ => true | _ => false end.

(** ** Log records

    The records of [logging] that tell what the pass decided; the
    progress messages around the clone and the cleanup are left out. *)

Inductive event : Type :=
| LogUpdating (repo_name : value)
| LogNoSnapshots
| LogNoManifest
| LogChecking (repo_name : value)
| LogShaMismatch (repo_name yaml_sha json_sha : value)
| LogNoMismatch (repo_name : value).

(** ** Program state: the configuration file and the log written so far *)

Record state : Type := mkState {
  disk : value;
  log : list event
}.

Definition logging (e : event) (st : state) : state :=
  mkState (disk st) (log st ++ [e]).

(** [save_yaml(file_path, yaml_data)]: the file holds the document, in
    the order of keys the document has in memory ([yaml.dump] writes the
    keys sorted; see [alike]). *)
Definition save_yaml (yaml_data : value) (st : state) : state :=
  mkState yaml_data (log st).

(** ** [update_yaml_field] *)

(** The [for entry in yaml_data] loop with its [break]: the result is the
    sequence of entries after the loop and the records logged on the way. *)
Fixpoint update_entries (entries : list value) (repo_name new_sha : value)
  : result (list value * list event) :=
  match entries with
  | [] => Ok ([], [])
  | entry :: rest =>
      let? has_name := py_in "repo_name" entry in
      let? hit :=
        (if has_name then
           let? name := py_getitem entry "repo_name" in
           if py_eq name repo_name then py_in "sha" entry else Ok false
         else Ok false) in
      if hit then
        let? entry' := py_setitem entry "sha" new_sha in
        Ok (entry' :: rest, [LogUpdating repo_name])
      else
        let? r := update_entries rest repo_name new_sha in
        Ok (entry :: fst r, snd r)
  end.

(** What [yaml_data] is after the loop: the loop variable aliases the
    elements of a list, so a list document sees the assignment; the keys of
    a dict and the characters of a string are never assigned to (the
    assignment raises first).  Each place of the list is taken as an object
    of its own: an object held at several places would show the assignment
    at each of them (see [alike]). *)
Definition patched_document (yaml_data : value) (entries' : list value)
  : value :=
  match yaml_data with
  | VList _ => VList entries'
  | _ => yaml_data
  end.

Definition update_yaml_field (repo_name new_sha : value) (st : state)
  : result state :=
  let yaml_data := disk st in
  let? entries := py_iter yaml_data in
  let? r := update_entries entries repo_name new_sha in
  let st' := mkState (disk st) (log st ++ snd r) in
  Ok (save_yaml (patched_document yaml_data (fst r)) st').

(** ** Stateful computations that may raise *)

Definition M (A : Type) : Type := state -> result A * state.

Definition ret {A} (a : A) : M A := fun st => (Ok a, st).

Definition bind {A B} (c : M A) (k : A -> M B) : M B :=
  fun st =>
    match c st with
    | (Ok a, st') => k a st'
    | (Raise e, st') => (Raise e, st')
    end.

Definition lift {A} (r : result A) : M A := fun st => (r, st).

Definition raise {A} (e : exn) : M A := fun st => (Raise e, st).

Definition tell (e : event) : M unit := fun st => (Ok tt, logging e st).

Definition load_config : M value := fun st => (Ok (disk st), st).

(** A call of [update_yaml_field]: an exception leaves the file as it was. *)
Definition call_update_yaml_field (repo_name new_sha : value) : M unit :=
  fun st =>
    match update_yaml_field repo_name new_sha st with
    | Ok st' => (Ok tt, st')
    | Raise e => (Raise e, st)
    end.

Notation "x <- c ;; k" := (bind c (fun x => k))
  (at level 61, c at next level, right associativity).
Notation "c ;;; k" := (bind c (fun _ => k))
  (at level 61, right associativity).

(** ** Paths and the manifest fetcher *)

Definition ends_with_slash (s : string) : bool :=
  match String.length s with
  | O => false
  | S n => String.eqb (String.substring n 1 s) "/"
  end.

(** [os.path.join(a, b)] on a POSIX system. *)
Definition os_path_join (a b : string) : string :=
  if String.prefix "/" b then b
  else if String.eqb a "" || ends_with_slash a then a ++ b
  else a ++ "/" ++ b.

(** [manifest[-1] if manifest else None] *)
Definition last_or_none (manifest : list string) : option string :=
  match manifest with
  | [] => None
  | _ => Some (List.last manifest "")
  end.

(** Truth value of a [str or None]. *)
Definition truthy (p : option string) : bool :=
  match p with
  | None => false
  | Some s => negb (String.eqb s "")
  end.

(** [glob.has_magic]: the pattern holds one of the characters that
    [glob.glob] expands; a pattern without them names one path. *)
Definition has_magic (s : string) : bool :=
  is_substring "*" s || is_substring "?" s || is_substring "[" s.

Section Run.

(** The file system after the clone, as the script observes it. *)
Variable path_exists : string -> bool.          (* os.path.exists *)
Variable glob_glob : string -> list string.     (* glob.glob *)
Variable read_json_file : string -> value.      (* json.load of a file *)

Definition fetch_latest_manifest (dir_path : string) : option string :=
  let manifest := glob_glob (os_path_join dir_path "manifest.json") in
  last_or_none manifest.

(** The [for entry in manifest_data] loop of [main] with its [break];
    the result is [found_match]. *)
Fixpoint scan_manifest (entries : list value) (repo : value) : M bool :=
  match entries with
  | [] => ret false
  | entry :: rest =>
      image <- lift (py_get entry "image-name") ;;
      name <- lift (py_get repo "repo_name") ;;
      stale <-
        (if py_eq image name then
           built <- lift (py_get entry "git-sha256") ;;
           sha <- lift (py_get repo "sha") ;;
           ret (py_ne built sha)
         else ret false) ;;
      if stale then
        name <- lift (py_get repo "repo_name") ;;
        sha <- lift (py_get repo "sha") ;;
        built <- lift (py_get entry "git-sha256") ;;
        tell (LogShaMismatch name sha built) ;;;
        name <- lift (py_get repo "repo_name") ;;
        built <- lift (py_get entry "git-sha256") ;;
        call_update_yaml_field name built ;;;
        ret true
      else scan_manifest rest repo
  end.

(** The body of [for repo in components]. *)
Definition process_component (manifest_data repo : value) : M unit :=
  has_sha <- lift (py_in "sha" repo) ;;
  tracked <- (if has_sha then lift (py_in "repo_name" repo)
              else ret false) ;;
  if tracked then
    name <- lift (py_get repo "repo_name") ;;
    tell (LogChecking name) ;;;
    entries <- lift (py_iter manifest_data) ;;
    found_match <- scan_manifest entries repo ;;
    if negb found_match then
      name <- lift (py_get repo "repo_name") ;;
      tell (LogNoMismatch name)
    else ret tt
  else ret tt.

Fixpoint for_components (manifest_data : value) (components : list value)
  : M unit :=
  match components with
  | [] => ret tt
  | repo :: rest =>
      process_component manifest_data repo ;;;
      for_components manifest_data rest
  end.

(** [[repo for repo in components if repo.get("repo_name") == component]] *)
Fixpoint filter_components (components : list value) (component : string)
  : result (list value) :=
  match components with
  | [] => Ok []
  | repo :: rest =>
      let? name := py_get repo "repo_name" in
      let? rest' := filter_components rest component in
      Ok (if py_eq name (VStr component) then repo :: rest' else rest')
  end.

(** The tail of [main] once [config] and [manifest_data] are loaded:
    normalisation of the configuration, the optional filter and the loop
    over the components. *)
Definition reconcile (config manifest_data : value)
  (component : option string) : M unit :=
  components <-
    (if is_dict config
     then lift (py_get_default config "components" (VList []))
     else ret config) ;;
  components <-
    (if truthy component then
       match component with
       | Some c =>
           l <- lift (py_iter components) ;;
           l' <- lift (filter_components l c) ;;
           ret (VList l')
       | None => ret components
       end
     else ret components) ;;
  l <- lift (py_iter components) ;;
  for_components manifest_data l.

(** [main], from the loading of the configuration on.  [snapshots_path]
    is the directory of the clone, [component] the [--component]
    argument. *)
Definition main (snapshots_path : string) (component : option string)
  : M unit :=
  config <- load_config ;;
  if negb (path_exists snapshots_path) then
    tell LogNoSnapshots ;;; raise (SystemExit 1)
  else
    let manifest_file_path := fetch_latest_manifest snapshots_path in
    match manifest_file_path with
    | Some path =>
        if truthy manifest_file_path then
          let manifest_data := read_json_file path in
          reconcile config manifest_data component
        else tell LogNoManifest ;;; raise (SystemExit 1)
    | None => tell LogNoManifest ;;; raise (SystemExit 1)
    end.

End Run.

(** A whole run on a configuration file holding [config], with a clone
    whose [manifest.json] holds [manifest_data]. *)
Definition run (config manifest_data : value) (component : option string)
  : result unit * state :=
  main (fun _ => true) (fun p => [p]) (fun _ => manifest_data)
    "tmp/repo/." component (mkState config []).

(** ** Building documents *)

Definition record (repo_name sha : string) : value :=
  VDict [("repo_name", VStr repo_name); ("sha", VStr sha)].

Definition manifest_entry (image_name git_sha256 : string) : value :=
  VDict [("image-name", VStr image_name); ("git-sha256", VStr git_sha256)].

(** ** Vocabulary for the statements

    Documents of the expected shape: a configuration that is a bare list
    of records, a manifest that is a list of entries, both lists of
    dicts. *)

Definition records (recs : list dict) : value := VList (map VDict recs).

(** What [d.get(k)] returns on a dict. *)
Definition get_field (k : string) (d : dict) : value :=
  match dict_lookup k d with
  | Some v => v
  | None => VNone
  end.

(** The guard of the loop of [main]: the record has both keys. *)
Definition tracked (r : dict) : bool :=
  dict_mem "sha" r && dict_mem "repo_name" r.

(** The test of the manifest loop of [main] for record [r] and entry [e]. *)
Definition stale_for (r e : dict) : bool :=
  py_eq (get_field "image-name" e) (get_field "repo_name" r) &&
  py_ne (get_field "git-sha256" e) (get_field "sha" r).

(** The test of the loop of [update_yaml_field] on a record. *)
Definition patch_target (repo_name : value) (r : dict) : bool :=
  match dict_lookup "repo_name" r with
  | Some v => py_eq v repo_name && dict_mem "sha" r
  | None => false
  end.

(** The entry named like the record, by the words of the specification:
    the first entry in manifest order whose image-name equals the name. *)
Definition first_named (name : value) (ents : list dict) : option dict :=
  find (fun e => py_eq (get_field "image-name" e) name) ents.

(** Null, booleans, integers and strings. *)
Definition scalar (v : value) : bool :=
  match v with
  | VList _ | VDict _ => false
  | _ => true
  end.

(** The records logged by the comparison of one component. *)
Definition is_comparison (e : event) : bool :=
  match e with
  | LogChecking _ | LogShaMismatch _ _ _ | LogNoMismatch _ => true
  | _ => false
  end.

(** The loop of [update_yaml_field] on a list of records, as a function
    on the records. *)
Fixpoint patch_records (repo_name new_sha : value) (recs : list dict)
  : list dict :=
  match recs with
  | [] => []
  | r :: rest =>
      if patch_target repo_name r then dict_set "sha" new_sha r :: rest
      else r :: patch_records repo_name new_sha rest
  end.

(** The record logged by that loop. *)
Definition patch_events (repo_name : value) (recs : list dict) : list event :=
  if existsb (patch_target repo_name) recs then [LogUpdating repo_name]
  else [].

(** ** The pass on a bare list of records, as functions on the records

    These are the counterparts on [list dict] of the loops of [main]; the
    lemmas [process_component_records], [for_components_records] and
    [reconcile_records] show that the program computes them. *)

(** The entry on which the manifest loop of [main] stops for record [r]. *)
Definition first_stale (ents : list dict) (r : dict) : option dict :=
  if tracked r then find (stale_for r) ents else None.

(** The records on disk after the component [r] is processed. *)
Definition step_disk (ents : list dict) (r : dict) (on_disk : list dict)
  : list dict :=
  match first_stale ents r with
  | Some e =>
      patch_records (get_field "repo_name" r) (get_field "git-sha256" e)
        on_disk
  | None => on_disk
  end.

(** What the processing of the component [r] logs. *)
Definition step_events (ents : list dict) (r : dict) (on_disk : list dict)
  : list event :=
  if tracked r then
    LogChecking (get_field "repo_name" r) ::
    match find (stale_for r) ents with
    | Some e =>
        LogShaMismatch (get_field "repo_name" r) (get_field "sha" r)
          (get_field "git-sha256" e) ::
        patch_events (get_field "repo_name" r) on_disk
    | None => [LogNoMismatch (get_field "repo_name" r)]
    end
  else [].

Definition pass_disk (ents : list dict) (components on_disk : list dict)
  : list dict :=
  fold_left (fun d r => step_disk ents r d) components on_disk.

Fixpoint pass_events (ents : list dict) (components on_disk : list dict)
  : list event :=
  match components with
  | [] => []
  | r :: rest =>
      step_events ents r on_disk ++
      pass_events ents rest (step_disk ents r on_disk)
  end.

(** The components the pass goes over, given the [--component] argument. *)
Definition selected (component : option string) (recs : list dict)
  : list dict :=
  match component with
  | Some c =>
      if String.eqb c "" then recs
      else filter (fun r => py_eq (get_field "repo_name" r) (VStr c)) recs
  | None => recs
  end.

(** The comparison of one component, from the component alone. *)
Definition comparison_events (ents : list dict) (r : dict) : list event :=
  if tracked r then
    LogChecking (get_field "repo_name" r) ::
    match find (stale_for r) ents with
    | Some e =>
        [LogShaMismatch (get_field "repo_name" r) (get_field "sha" r)
           (get_field "git-sha256" e)]
    | None => [LogNoMismatch (get_field "repo_name" r)]
    end
  else [].




(** The names, and below the hashes, are scalars, as the file formats
    have them (strings). *)
Definition scalar_names (recs : list dict) : Prop :=
  Forall (fun r => scalar (get_field "repo_name" r) = true) recs.

(** ** The course of a pass *)






(** Entries of one image-name carry one hash. *)
Definition consistent_manifest (ents : list dict) : Prop :=
  forall e1 e2,
    In e1 ents -> In e2 ents ->
    py_eq (get_field "image-name" e1) (get_field "image-name" e2) = true ->
    py_eq (get_field "git-sha256" e1) (get_field "git-sha256" e2) = true.

Definition scalar_hashes (ents : list dict) : Prop :=
  Forall (fun e => scalar (get_field "git-sha256" e) = true) ents.

(** A second run after a first one leaves the configuration file as the
    first one wrote it. *)
Definition pass_fixed_point (config manifest_data : value)
  (component : option string) : Prop :=
  let written := disk (snd (run config manifest_data component)) in
  disk (snd (run written manifest_data component)) = written.

(** The invariant of a pass over the components [done] so far: a record
    on disk is the one loaded, or bears the name of a stale component
    already processed; and the patch of every stale component already
    processed has nothing left to change. *)
Definition patched_for (ents : list dict) (done : dict -> Prop) (r' : dict)
  : Prop :=
  exists c e,
    done c /\ tracked c = true /\ find (stale_for c) ents = Some e /\
    py_eq (get_field "repo_name" r') (get_field "repo_name" c) = true.

Definition pass_rel (ents : list dict) (done : dict -> Prop) (r r' : dict)
  : Prop :=
  r' = r \/ patched_for ents done r'.

Definition settled_for (ents : list dict) (done : dict -> Prop)
  (on_disk : list dict) : Prop :=
  forall c e,
    done c -> tracked c = true -> find (stale_for c) ents = Some e ->
    patch_records (get_field "repo_name" c) (get_field "git-sha256" e)
      on_disk = on_disk.

Definition pass_inv (ents recs : list dict) (done : dict -> Prop)
  (on_disk : list dict) : Prop :=
  Forall2 (pass_rel ents done) recs on_disk /\ settled_for ents done on_disk.

(** ** Documents that differ by allowed assignments only

    [alike P v v']: [v'] is [v] but for the order of the keys of its
    mappings and for values stored under a key of a mapping where [P]
    allows that mapping, key and new value.  Sequences keep their length
    and order, mappings keep their set of keys; values are compared key by
    key, so the order in which a mapping lists its keys does not count,
    and an allowed change may show at several places. *)
Inductive alike (P : dict -> string -> value -> Prop)
  : value -> value -> Prop :=
| alike_same (v : value) : alike P v v
| alike_list (l l' : list value) :
    Forall2 (alike P) l l' -> alike P (VList l) (VList l')
| alike_dict (d d' : dict) :
    (forall k, dict_mem k d' = dict_mem k d) ->
    (forall k v v',
        dict_lookup k d = Some v -> dict_lookup k d' = Some v' ->
        alike P v v' \/ P d k v') ->
    alike P (VDict d) (VDict d').

(** The same document, up to the order of keys. *)
Definition same_document : value -> value -> Prop :=
  alike (fun _ _ _ => False).




(** The assignments of a pass: under ["sha"], in a mapping named by one
    of the [components], the hash of a manifest entry found stale for
    that component. *)
Definition sha_of_stale (ents components : list dict)
  (d : dict) (k : string) (v' : value) : Prop :=
  k = "sha" /\
  exists c e,
    In c components /\ In e ents /\ stale_for c e = true /\
    patch_target (get_field "repo_name" c) d = true /\
    v' = get_field "git-sha256" e.

(** No mapping among the entries of a list document bears the name. *)
Definition no_record_named (key : value) (doc : value) : Prop :=
  match doc with
  | VList entries =>
      Forall (fun entry =>
                match entry with
                | VDict d =>
                    forall v, dict_lookup "repo_name" d = Some v ->
                              py_eq v key = false
                | _ => True
                end) entries
  | _ => True
  end.

(** By the words of the specification: a call with a key that names no
    record writes the document back as it was and raises nothing. *)
Definition no_match_is_noop (doc key new : value) : Prop :=
  forall lg,
    no_record_named key doc ->
    update_yaml_field key new (mkState doc lg) = Ok (mkState doc lg).

(** A computation only adds records to the log. *)
Definition extends {A} (c : M A) : Prop :=
  forall st, exists evs, log (snd (c st)) = log st ++ evs.

(** ** Two more statements by the words of the specification *)

(** A record is passed over only when it has neither key. *)
Definition skips_only_without_both (r : dict) : Prop :=
  forall m st,
    process_component m (VDict r) st = (Ok tt, st) ->
    dict_mem "repo_name" r = false /\ dict_mem "sha" r = false.

(** The record of a one-record configuration is updated exactly when the
    first entry of its name has another hash, and then to that hash. *)
Definition first_match_update (r : dict) (ents : list dict) : Prop :=
  disk (snd (run (records [r]) (records ents) None)) =
  records
    [match first_named (get_field "repo_name" r) ents with
     | Some e =>
         if py_ne (get_field "git-sha256" e) (get_field "sha" r)
         then dict_set "sha" (get_field "git-sha256" e) r
         else r
     | None => r
     end].

(** The fetcher finds [manifest.json] in [dir_path] exactly when the file
    exists. *)
Definition fetch_finds_manifest (lexists : string -> bool)
  (glob_glob : string -> list string) (dir_path : string) : Prop :=
  fetch_latest_manifest glob_glob dir_path =
  if lexists (os_path_join dir_path "manifest.json")
  then Some (os_path_join dir_path "manifest.json")
  else None.

(** A clone in a directory named [r[1]]: the paths that exist, and what
    [glob.glob] answers there.  A pattern without wildcard characters
    names itself when it exists; in a pattern, [[1]] is a character class
    that stands for the character [1], so no existing path matches a
    pattern through [r[1]]. *)
Definition bracket_paths : list string :=
  ["tmp"; "tmp/r[1]"; "tmp/r[1]/."; "tmp/r[1]/manifest.json";
   "tmp/r[1]/./manifest.json"].

Definition bracket_lexists (p : string) : bool :=
  existsb (String.eqb p) bracket_paths.

Definition bracket_glob (p : string) : list string :=
  if has_magic p then []
  else if bracket_lexists p then [p] else [].

(** Null, booleans and integers: neither [in] nor [for] applies. *)
Definition not_iterable (v : value) : bool :=
  match v with
  | VNone | VBool _ | VInt _ => true
  | _ => false
  end.

(** [isinstance(v, list)] *)
Definition is_list (v : value) : bool :=
  match v with VList _ => true | _ => false end.

(** A computation that leaves alone a configuration file that does not
    hold a list. *)
Definition keeps_file {A} (c : M A) : Prop :=
  forall st, is_list (disk st) = false -> disk (snd (c st)) = disk st.

(** Where a record written by a pass comes from: it is the record
    loaded, or that record with, under ["sha"], the hash of a manifest
    entry matched with one of the [components] whose name names it. *)
Definition written_from (ents components : list dict) (r r' : dict) : Prop :=
  r' = r \/
  exists c e,
    In c components /\ In e ents /\ stale_for c e = true /\
    patch_target (get_field "repo_name" c) r = true /\
    r' = dict_set "sha" (get_field "git-sha256" e) r.

(** The exceptions of the operators used by the pass. *)
Definition type_or_attribute (e : exn) : bool :=
  match e with
  | TypeError | AttributeError => true
  | _ => false
  end.

(** A computation that raises nothing but the exceptions [allowed]. *)
Definition raises_only (allowed : exn -> bool) {A} (c : M A) : Prop :=
  forall st e, fst (c st) = Raise e -> allowed e = true.

(** The same for a result. *)
Definition fails_only (allowed : exn -> bool) {A} (r : result A) : Prop :=
  forall e, r = Raise e -> allowed e = true.

(** The choice of the configuration file at the start of [main]:
    [ROOT_DIR] and [SCRIPT_DIR] are the constants of the script,
    [config_override] the [--config] argument. *)
Definition config_path (path_exists : string -> bool)
  (ROOT_DIR SCRIPT_DIR : string) (config_override : option string)
  : string :=
  if truthy config_override then
    match config_override with
    | Some o =>
        let root_override_path := os_path_join ROOT_DIR o in
        let script_override_path := os_path_join SCRIPT_DIR o in
        if path_exists root_override_path then root_override_path
        else script_override_path
    | None => os_path_join SCRIPT_DIR "config.yaml"
    end
  else os_path_join SCRIPT_DIR "config.yaml".

(** What a run over records of scalar names logs for one component. *)
Definition report (ents : list dict) (r : dict) : list event :=
  if tracked r then
    LogChecking (get_field "repo_name" r) ::
    match find (stale_for r) ents with
    | Some e =>
        [LogShaMismatch (get_field "repo_name" r) (get_field "sha" r)
           (get_field "git-sha256" e);
         LogUpdating (get_field "repo_name" r)]
    | None => [LogNoMismatch (get_field "repo_name" r)]
    end
  else [].


(** * Properties *)

(** The scenario of the specification: [a] is stale, [b] is not. *)
Example scenario :
  run
    (VList [record "a" "111"; record "b" "222"])
    (VList [manifest_entry "a" "999"; manifest_entry "b" "222"])
    None
  = (Ok tt,
     mkState (VList [record "a" "999"; record "b" "222"])
       [LogChecking (VStr "a");
        LogShaMismatch (VStr "a") (VStr "111") (VStr "999");
        LogUpdating (VStr "a");
        LogChecking (VStr "b");
        LogNoMismatch (VStr "b")]).
Proof. reflexivity. Qed.

(** ** Dicts *)

Lemma dict_lookup_set_same k v d : dict_lookup k (dict_set k v d) = Some v.
Proof.
  induction d as [|[k' v'] d IH]; simpl.
  - now rewrite String.eqb_refl.
  - destruct (String.eqb k k') eqn:E; simpl; rewrite E; auto.
Qed.

Lemma dict_lookup_set_other k k' v d :
  k' <> k -> dict_lookup k' (dict_set k v d) = dict_lookup k' d.
Proof.
  intros Hne. induction d as [|[k0 v0] d IH]; simpl.
  - destruct (String.eqb k' k) eqn:E; auto.
    apply String.eqb_eq in E. contradiction.
  - destruct (String.eqb k k0) eqn:E; simpl.
    + apply String.eqb_eq in E. subst k0.
      destruct (String.eqb k' k) eqn:E'; auto.
      apply String.eqb_eq in E'. contradiction.
    + now rewrite IH.
Qed.

Lemma dict_mem_set_other k k' v d :
  k' <> k -> dict_mem k' (dict_set k v d) = dict_mem k' d.
Proof. intros H. unfold dict_mem. now rewrite dict_lookup_set_other. Qed.

Lemma dict_mem_set_same k v d : dict_mem k (dict_set k v d) = true.
Proof. unfold dict_mem. now rewrite dict_lookup_set_same. Qed.

(** Assigning to a key that is there keeps the keys and their order. *)
Lemma dict_keys_set k v d :
  dict_mem k d = true -> dict_keys (dict_set k v d) = dict_keys d.
Proof.
  unfold dict_mem, dict_keys.
  induction d as [|[k' v'] d IH]; simpl; [discriminate|].
  destruct (String.eqb k k') eqn:E; simpl; intros H; [reflexivity|].
  now rewrite IH.
Qed.

(** Assigning the value a key already has changes nothing. *)
Lemma dict_set_same_value k v d :
  dict_lookup k d = Some v -> dict_set k v d = d.
Proof.
  induction d as [|[k' v'] d IH]; simpl; [discriminate|].
  destruct (String.eqb k k') eqn:E; intros H.
  - now inversion H.
  - now rewrite IH.
Qed.

(** ** Documents alike *)

Lemma Forall2_same {A} (R : A -> A -> Prop) (l : list A) :
  (forall a, R a a) -> Forall2 R l l.
Proof. intros H. induction l; constructor; auto. Qed.


(** An allowed assignment to a key that is there. *)
Lemma alike_dict_set P k w d :
  dict_mem k d = true -> P d k w ->
  alike P (VDict d) (VDict (dict_set k w d)).
Proof.
  intros Hm Hp. apply alike_dict.
  - intros k'. destruct (string_dec k' k) as [->|Hne].
    + now rewrite dict_mem_set_same, Hm.
    + now apply dict_mem_set_other.
  - intros k' v v' Hv Hv'. destruct (string_dec k' k) as [->|Hne].
    + right. rewrite dict_lookup_set_same in Hv'.
      inversion Hv'; subst. exact Hp.
    + left. rewrite dict_lookup_set_other in Hv' by exact Hne.
      assert (v' = v) by congruence. subst v'. apply alike_same.
Qed.


(** ** [update_yaml_field] on a list of records *)

Lemma update_entries_cons r rest name new :
  update_entries (VDict r :: rest) name new =
  if patch_target name r
  then Ok (VDict (dict_set "sha" new r) :: rest, [LogUpdating name])
  else let? x := update_entries rest name new in
       Ok (VDict r :: fst x, snd x).
Proof.
  cbn [update_entries py_in py_getitem py_setitem rbind].
  unfold patch_target, dict_mem at 1.
  destruct (dict_lookup "repo_name" r) as [v|]; cbn [rbind]; [|reflexivity].
  destruct (py_eq v name); cbn [rbind andb]; [|reflexivity].
  destruct (dict_mem "sha" r); reflexivity.
Qed.

Lemma update_entries_records recs name new :
  update_entries (map VDict recs) name new =
  Ok (map VDict (patch_records name new recs), patch_events name recs).
Proof.
  unfold patch_events.
  induction recs as [|r recs IH]; [reflexivity|].
  cbn [map patch_records existsb]. rewrite update_entries_cons.
  destruct (patch_target name r); cbn [orb]; [reflexivity|].
  rewrite IH. reflexivity.
Qed.

Lemma update_yaml_field_records recs name new lg :
  update_yaml_field name new (mkState (records recs) lg) =
  Ok (mkState (records (patch_records name new recs))
        (lg ++ patch_events name recs)).
Proof.
  unfold update_yaml_field, records. cbn [disk py_iter rbind].
  rewrite update_entries_records. reflexivity.
Qed.

Lemma patch_records_length name new recs :
  List.length (patch_records name new recs) = List.length recs.
Proof.
  induction recs as [|r recs IH]; cbn [patch_records]; [reflexivity|].
  destruct (patch_target name r); cbn [List.length]; congruence.
Qed.

Lemma patch_records_none name new recs :
  Forall (fun r => patch_target name r = false) recs ->
  patch_records name new recs = recs.
Proof.
  induction 1 as [|r recs Hr _ IH]; cbn [patch_records]; [reflexivity|].
  rewrite Hr. congruence.
Qed.



Lemma patch_target_has_sha name r :
  patch_target name r = true -> dict_mem "sha" r = true.
Proof.
  unfold patch_target. destruct (dict_lookup "repo_name" r); [|discriminate].
  intros H. apply andb_true_iff in H. tauto.
Qed.


(** ** [update_yaml_field] on any document *)





(** On a dict document the loop goes over the keys: none is assigned to,
    and none is indexed unless it contains the text [repo_name]. *)
Lemma update_entries_keys (keys : list string) name new :
  Forall (fun k => is_substring "repo_name" k = false) keys ->
  update_entries (map VStr keys) name new = Ok (map VStr keys, []).
Proof.
  induction 1 as [|k keys Hk _ IH]; [reflexivity|].
  cbn [map update_entries py_in rbind]. rewrite Hk. cbn [rbind].
  rewrite IH. reflexivity.
Qed.

Lemma update_yaml_field_no_target recs name new lg :
  Forall (fun r => patch_target name r = false) recs ->
  update_yaml_field name new (mkState (records recs) lg)
  = Ok (mkState (records recs) lg).
Proof.
  intros N. rewrite update_yaml_field_records.
  rewrite patch_records_none by exact N.
  unfold patch_events.
  replace (existsb (patch_target name) recs) with false.
  - now rewrite app_nil_r.
  - symmetry. apply not_true_is_false. intros E.
    apply existsb_exists in E. destruct E as (r & Hin & Hr).
    rewrite Forall_forall in N. rewrite (N r Hin) in Hr. discriminate.
Qed.

(** C7, as stated, fails: a list document with an entry that is a number,
    in which no record bears the key, makes the call raise [TypeError]
    when the loop reaches that entry. *)
Lemma number_entry_raises_without_match :
  ~ no_match_is_noop
      (VList [VDict [("repo_name", VStr "a"); ("sha", VStr "111")]; VInt 7])
      (VStr "b") (VStr "999").
Proof.
  intros H.
  assert (N : no_record_named (VStr "b")
                (VList [VDict [("repo_name", VStr "a"); ("sha", VStr "111")];
                        VInt 7])).
  { cbn [no_record_named]. constructor; [|constructor; [exact I|constructor]].
    intros v Hv. cbn in Hv. inversion Hv. reflexivity. }
  specialize (H [] N). cbv in H. discriminate H.
Qed.

(** C7, amended. On a document that is a list of mappings, when no
    record's ["repo_name"] equals the key, [update_yaml_field] raises
    nothing, logs nothing and writes back the same document: the same
    records in the same order, each with the same keys and the same
    values. *)
Theorem update_yaml_field_no_match (recs : list dict) (name new : value)
  (lg : list event) :
  Forall (fun r => forall v,
            dict_lookup "repo_name" r = Some v -> py_eq v name = false)
         recs ->
  exists st',
    update_yaml_field name new (mkState (records recs) lg) = Ok st' /\
    same_document (records recs) (disk st') /\
    log st' = lg.
Proof.
  intros H. exists (mkState (records recs) lg).
  split; [|split; [apply alike_same|reflexivity]].
  apply update_yaml_field_no_target.
  eapply Forall_impl; [|exact H]. cbv beta. intros r Hr.
  unfold patch_target.
  destruct (dict_lookup "repo_name" r) as [v|]; [|reflexivity].
  now rewrite (Hr v eq_refl).
Qed.

Lemma update_yaml_field_no_match_witness :
  exists st',
    update_yaml_field (VStr "b") (VStr "999")
      (mkState (records [[("repo_name", VStr "a"); ("sha", VStr "111")]]) [])
    = Ok st' /\
    same_document (records [[("repo_name", VStr "a"); ("sha", VStr "111")]])
      (disk st') /\
    log st' = [].
Proof.
  apply (update_yaml_field_no_match
           [[("repo_name", VStr "a"); ("sha", VStr "111")]]
           (VStr "b") (VStr "999") []).
  constructor; [|constructor].
  intros v Hv. cbn in Hv. inversion Hv. reflexivity.
Defined.


Lemma records_alike P (recs recs' : list dict) :
  Forall2 (fun r r' => alike P (VDict r) (VDict r')) recs recs' ->
  alike P (records recs) (records recs').
Proof.
  intros H. apply alike_list. unfold records.
  induction H; cbn [map]; constructor; auto.
Qed.


(** A named record without ["sha"] is passed over: the assignment lands
    on a later record of that name, or on none. *)
Example update_lands_on_later_record :
  update_yaml_field (VStr "a") (VStr "999")
    (mkState (records [[("repo_name", VStr "a")];
                       [("repo_name", VStr "a"); ("sha", VStr "111")]]) [])
  = Ok (mkState (records [[("repo_name", VStr "a")];
                          [("repo_name", VStr "a"); ("sha", VStr "999")]])
          [LogUpdating (VStr "a")]).
Proof. reflexivity. Qed.

Example update_lands_on_no_record :
  update_yaml_field (VStr "a") (VStr "999")
    (mkState (records [[("repo_name", VStr "a")]]) [])
  = Ok (mkState (records [[("repo_name", VStr "a")]]) []).
Proof. reflexivity. Qed.

(** ** The loops of [main] on lists of records *)

Lemma py_get_dict d k : py_get (VDict d) k = Ok (get_field k d).
Proof.
  unfold py_get, py_get_default, get_field.
  now destruct (dict_lookup k d).
Qed.

Lemma bind_lift_ok {A B} (a : A) (k : A -> M B) st :
  bind (lift (Ok a)) k st = k a st.
Proof. reflexivity. Qed.

Lemma bind_ret {A B} (a : A) (k : A -> M B) st : bind (ret a) k st = k a st.
Proof. reflexivity. Qed.

Lemma bind_tell {B} e (k : unit -> M B) st :
  bind (tell e) k st = k tt (logging e st).
Proof. reflexivity. Qed.

Lemma call_update_records name new on_disk lg :
  call_update_yaml_field name new (mkState (records on_disk) lg) =
  (Ok tt, mkState (records (patch_records name new on_disk))
            (lg ++ patch_events name on_disk)).
Proof.
  unfold call_update_yaml_field. now rewrite update_yaml_field_records.
Qed.

Lemma scan_manifest_records (ents : list dict) (r : dict) st :
  scan_manifest (map VDict ents) (VDict r) st =
  match find (stale_for r) ents with
  | Some e =>
      bind (call_update_yaml_field (get_field "repo_name" r)
              (get_field "git-sha256" e))
        (fun _ => ret true)
        (logging (LogShaMismatch (get_field "repo_name" r)
                    (get_field "sha" r) (get_field "git-sha256" e)) st)
  | None => (Ok false, st)
  end.
Proof.
  induction ents as [|e ents IH]; [reflexivity|].
  cbn [map scan_manifest find].
  rewrite !py_get_dict.
  unfold stale_for at 1.
  unfold bind at 1, lift at 1. unfold bind at 1, lift at 1.
  unfold bind at 1.
  destruct (py_eq (get_field "image-name" e) (get_field "repo_name" r));
    cbn [andb].
  - unfold bind at 1, lift at 1. unfold bind at 1, lift at 1.
    unfold ret at 1.
    destruct (py_ne (get_field "git-sha256" e) (get_field "sha" r)).
    + reflexivity.
    + exact IH.
  - unfold ret at 1. exact IH.
Qed.

Lemma process_component_records (ents : list dict) (r : dict)
  (on_disk : list dict) lg :
  process_component (records ents) (VDict r) (mkState (records on_disk) lg) =
  (Ok tt, mkState (records (step_disk ents r on_disk))
            (lg ++ step_events ents r on_disk)).
Proof.
  unfold process_component, step_disk, step_events, first_stale, tracked.
  cbn [py_in]. unfold bind at 1, lift at 1. unfold bind at 1.
  destruct (dict_mem "sha" r); cbn [andb].
  2:{ unfold ret. now rewrite app_nil_r. }
  unfold lift at 1.
  destruct (dict_mem "repo_name" r).
  2:{ unfold ret. now rewrite app_nil_r. }
  rewrite !py_get_dict.
  unfold bind at 1, lift at 1. unfold bind at 1, tell at 1.
  unfold records at 1. cbn [py_iter].
  unfold bind at 1, lift at 1. unfold bind at 1.
  rewrite scan_manifest_records.
  destruct (find (stale_for r) ents) as [e|].
  - unfold bind at 1. unfold logging. cbn [disk log].
    rewrite call_update_records. unfold ret. cbn [negb].
    rewrite <- !app_assoc. reflexivity.
  - cbn [negb]. unfold bind, lift, tell, logging. cbn [disk log].
    rewrite <- !app_assoc. reflexivity.
Qed.

Lemma for_components_records (ents : list dict) (components : list dict) :
  forall (on_disk : list dict) lg,
    for_components (records ents) (map VDict components)
      (mkState (records on_disk) lg) =
    (Ok tt, mkState (records (pass_disk ents components on_disk))
              (lg ++ pass_events ents components on_disk)).
Proof.
  induction components as [|r rest IH]; intros on_disk lg.
  - cbn. now rewrite app_nil_r.
  - cbn [map for_components]. unfold bind at 1.
    rewrite process_component_records. rewrite IH.
    cbn [pass_events]. unfold pass_disk. cbn [fold_left].
    now rewrite app_assoc.
Qed.

Lemma filter_components_records (recs : list dict) (c : string) :
  filter_components (map VDict recs) c =
  Ok (map VDict
        (filter (fun r => py_eq (get_field "repo_name" r) (VStr c)) recs)).
Proof.
  induction recs as [|r recs IH]; [reflexivity|].
  cbn [map filter_components filter]. rewrite py_get_dict. cbn [rbind].
  rewrite IH. cbn [rbind].
  now destruct (py_eq (get_field "repo_name" r) (VStr c)).
Qed.

Lemma reconcile_records (ents recs : list dict) (component : option string)
  (on_disk : list dict) lg :
  reconcile (records recs) (records ents) component
    (mkState (records on_disk) lg) =
  (Ok tt,
   mkState (records (pass_disk ents (selected component recs) on_disk))
     (lg ++ pass_events ents (selected component recs) on_disk)).
Proof.
  unfold reconcile, selected. unfold records at 1. cbn [is_dict].
  unfold bind at 1, ret at 1.
  destruct component as [c|]; cbn [truthy].
  - destruct (String.eqb c ""); cbn [negb].
    + unfold bind at 1, ret at 1. cbn [py_iter].
      unfold bind at 1, lift at 1. apply for_components_records.
    + unfold bind at 1. unfold bind at 1, lift at 1.
      unfold records at 1. cbn [py_iter].
      unfold bind at 1, lift at 1.
      rewrite filter_components_records.
      unfold ret at 1. cbn [py_iter].
      unfold bind at 1, lift at 1. apply for_components_records.
  - unfold bind at 1, ret at 1. cbn [py_iter].
    unfold bind at 1, lift at 1. apply for_components_records.
Qed.

(** A run whose clone holds a manifest is the pass on the loaded
    documents. *)
Lemma main_reconcile (path_exists : string -> bool)
  (glob_glob : string -> list string) (read_json_file : string -> value)
  snapshots_path path component st :
  path_exists snapshots_path = true ->
  fetch_latest_manifest glob_glob snapshots_path = Some path ->
  path <> "" ->
  main path_exists glob_glob read_json_file snapshots_path component st =
  reconcile (disk st) (read_json_file path) component st.
Proof.
  intros He Hf Hp. unfold main. unfold bind at 1, load_config at 1.
  rewrite He, Hf. cbn [negb truthy].
  destruct (String.eqb path "") eqn:E; [|reflexivity].
  apply String.eqb_eq in E. contradiction.
Qed.

Lemma run_reconcile config manifest_data component :
  run config manifest_data component =
  reconcile config manifest_data component (mkState config []).
Proof. reflexivity. Qed.

(** ** The comparisons of a pass *)

Lemma patch_events_not_comparison name on_disk :
  filter is_comparison (patch_events name on_disk) = [].
Proof.
  unfold patch_events. now destruct (existsb (patch_target name) on_disk).
Qed.

Lemma step_events_comparison ents r on_disk :
  filter is_comparison (step_events ents r on_disk) = comparison_events ents r.
Proof.
  unfold step_events, comparison_events.
  destruct (tracked r); [|reflexivity].
  destruct (find (stale_for r) ents) as [e|]; [|reflexivity].
  cbn [filter is_comparison]. now rewrite patch_events_not_comparison.
Qed.

Lemma pass_events_comparison ents components :
  forall on_disk,
    filter is_comparison (pass_events ents components on_disk) =
    flat_map (comparison_events ents) components.
Proof.
  induction components as [|r rest IH]; intros on_disk; [reflexivity|].
  cbn [pass_events flat_map].
  now rewrite filter_app, step_events_comparison, IH.
Qed.

(** C8. The comparisons of a pass over a bare-list configuration are
    those of the components loaded at the start against the manifest:
    whatever records the configuration file holds when the pass starts,
    and whatever is written to it on the way, the pass raises nothing and
    the comparison records it logs are the ones computed from each loaded
    component alone. *)
Theorem comparisons_use_loaded_components (ents recs : list dict)
  (component : option string) (on_disk : list dict) (lg : list event) :
  let out := reconcile (records recs) (records ents) component
               (mkState (records on_disk) lg) in
  fst out = Ok tt /\
  filter is_comparison (log (snd out)) =
  filter is_comparison lg ++
  flat_map (comparison_events ents) (selected component recs).
Proof.
  cbv zeta. rewrite reconcile_records. cbn [fst snd log].
  split; [reflexivity|].
  now rewrite filter_app, pass_events_comparison.
Qed.

(** ** The log only grows *)

Lemma extends_ret {A} (a : A) : extends (ret a).
Proof. intros st. exists []. cbn. now rewrite app_nil_r. Qed.

Lemma extends_lift {A} (r : result A) : extends (lift r).
Proof. intros st. exists []. cbn. now rewrite app_nil_r. Qed.

Lemma extends_raise {A} e : extends (@raise A e).
Proof. intros st. exists []. cbn. now rewrite app_nil_r. Qed.

Lemma extends_tell e : extends (tell e).
Proof. intros st. exists [e]. reflexivity. Qed.

Lemma extends_bind {A B} (c : M A) (k : A -> M B) :
  extends c -> (forall a, extends (k a)) -> extends (bind c k).
Proof.
  intros Hc Hk st. unfold bind.
  destruct (Hc st) as [evs E].
  destruct (c st) as [[a|e] st']; cbn [snd] in *.
  - destruct (Hk a st') as [evs' E'].
    exists (evs ++ evs'). now rewrite E', E, app_assoc.
  - now exists evs.
Qed.

Lemma extends_call_update name new : extends (call_update_yaml_field name new).
Proof.
  intros st. unfold call_update_yaml_field, update_yaml_field.
  destruct (py_iter (disk st)) as [entries|e]; cbn [rbind].
  2:{ exists []. cbn. now rewrite app_nil_r. }
  destruct (update_entries entries name new) as [[es evs]|e]; cbn [rbind].
  - exists evs. reflexivity.
  - exists []. cbn. now rewrite app_nil_r.
Qed.

Lemma extends_scan_manifest entries repo : extends (scan_manifest entries repo).
Proof.
  induction entries as [|entry rest IH]; cbn [scan_manifest].
  - apply extends_ret.
  - repeat (apply extends_bind; [|intros ?]);
      try apply extends_lift; try apply extends_ret.
    + destruct (py_eq a a0); [|apply extends_ret].
      repeat (apply extends_bind; [|intros ?]);
        try apply extends_lift; apply extends_ret.
    + destruct a1; [|exact IH].
      repeat (apply extends_bind; [|intros ?]);
        try apply extends_lift; try apply extends_ret;
        try apply extends_tell; apply extends_call_update.
Qed.

(** ** Which records are evaluated *)

Lemma app_cons_not_nil_eq {A} (l : list A) x evs : l <> l ++ x :: evs.
Proof.
  intros E. apply (f_equal (@List.length A)) in E.
  rewrite length_app in E. cbn [List.length] in E. lia.
Qed.

(** C6, as stated, fails: a record with a ["repo_name"] and no ["sha"] is
    passed over without a comparison, though the manifest has an entry of
    its name. *)
Lemma name_only_record_is_skipped :
  ~ skips_only_without_both [("repo_name", VStr "a")].
Proof.
  intros H.
  destruct (H (records [[("image-name", VStr "a");
                         ("git-sha256", VStr "999")]])
              (mkState (records [[("repo_name", VStr "a")]]) [])
              eq_refl) as [C _].
  discriminate C.
Qed.

(** C6, amended. A record is passed over (nothing logged, nothing
    compared, nothing written, nothing raised) exactly when it lacks the
    ["sha"] key or the ["repo_name"] key; a record with both keys is
    evaluated: the check of its name is logged and the manifest is gone
    through. *)
Theorem process_component_skips_iff (r : dict) (m : value) (st : state) :
  (process_component m (VDict r) st = (Ok tt, st) <-> tracked r = false) /\
  (tracked r = true ->
   exists evs,
     log (snd (process_component m (VDict r) st)) =
     log st ++ LogChecking (get_field "repo_name" r) :: evs).
Proof.
  assert (T : tracked r = true ->
              exists evs,
                log (snd (process_component m (VDict r) st)) =
                log st ++ LogChecking (get_field "repo_name" r) :: evs).
  { intros Ht. unfold tracked in Ht. apply andb_true_iff in Ht.
    destruct Ht as [Hs Hn].
    unfold process_component. cbn [py_in].
    unfold bind at 1, lift at 1. rewrite Hs.
    unfold bind at 1, lift at 1. rewrite Hn.
    rewrite py_get_dict. unfold bind at 1, lift at 1.
    unfold bind at 1, tell at 1.
    match goal with
    | |- context [?c (logging ?e st)] =>
        assert (E : extends c);
        [|destruct (E (logging e st)) as [evs Hevs]; exists evs;
          rewrite Hevs; cbn [logging log]; now rewrite <- app_assoc]
    end.
    apply extends_bind; [apply extends_lift|intros entries].
    apply extends_bind; [apply extends_scan_manifest|intros found].
    destruct found; cbn [negb]; [apply extends_ret|].
    apply extends_bind; [apply extends_lift|intros ?]. apply extends_tell. }
  split; [|exact T].
  split.
  - intros E. destruct (tracked r) eqn:Ht; [|reflexivity].
    destruct (T eq_refl) as [evs Hevs]. rewrite E in Hevs. cbn [snd] in Hevs.
    now apply app_cons_not_nil_eq in Hevs.
  - intros Ht. unfold tracked in Ht. unfold process_component. cbn [py_in].
    unfold bind at 1, lift at 1.
    destruct (dict_mem "sha" r); cbn [andb] in Ht.
    + unfold bind at 1, lift at 1. rewrite Ht. reflexivity.
    + reflexivity.
Qed.

Lemma process_component_skips_iff_witness :
  exists evs,
    log (snd (process_component
                (records [[("image-name", VStr "a");
                           ("git-sha256", VStr "999")]])
                (VDict [("repo_name", VStr "a"); ("sha", VStr "111")])
                (mkState
                   (records [[("repo_name", VStr "a"); ("sha", VStr "111")]])
                   []))) =
    [] ++ LogChecking (VStr "a") :: evs.
Proof.
  apply (proj2 (process_component_skips_iff
                  [("repo_name", VStr "a"); ("sha", VStr "111")]
                  (records [[("image-name", VStr "a");
                             ("git-sha256", VStr "999")]])
                  (mkState
                     (records [[("repo_name", VStr "a");
                                ("sha", VStr "111")]]) []))).
  reflexivity.
Defined.

(** ** Which manifest entry a component is matched with *)

Lemma find_first_split {A} (p : A -> bool) (l : list A) (x : A) :
  find p l = Some x <->
  exists pre post,
    l = pre ++ x :: post /\ Forall (fun y => p y = false) pre /\ p x = true.
Proof.
  induction l as [|a l IH]; cbn [find].
  - split; [discriminate|]. intros (pre & post & E & _).
    now destruct pre.
  - destruct (p a) eqn:Pa.
    + split.
      * intros H. inversion H; subst. exists [], l. auto.
      * intros (pre & post & E & Hpre & Hx).
        destruct pre as [|b pre]; cbn [app] in E; inversion E; subst; auto.
        inversion Hpre; subst. congruence.
    + rewrite IH. split.
      * intros (pre & post & -> & Hpre & Hx).
        exists (a :: pre), post. auto.
      * intros (pre & post & E & Hpre & Hx).
        destruct pre as [|b pre]; cbn [app] in E; inversion E; subst.
        -- congruence.
        -- inversion Hpre; subst. exists pre, post. auto.
Qed.

Lemma find_none_forall {A} (p : A -> bool) (l : list A) :
  find p l = None <-> Forall (fun y => p y = false) l.
Proof.
  induction l as [|a l IH]; cbn [find].
  - split; auto.
  - destruct (p a) eqn:Pa.
    + split; [discriminate|]. intros H. inversion H; subst. congruence.
    + rewrite IH. split; [auto|]. intros H. now inversion H.
Qed.

Lemma get_field_record_name n s : get_field "repo_name" (
  [("repo_name", VStr n); ("sha", VStr s)]) = VStr n.
Proof. reflexivity. Qed.

Lemma get_field_record_sha n s : get_field "sha" (
  [("repo_name", VStr n); ("sha", VStr s)]) = VStr s.
Proof. reflexivity. Qed.

(** C1, as stated, fails: the record pinned at the hash of the first
    entry of its name is moved to the hash of the second one. *)
Lemma first_named_entry_not_authoritative :
  ~ first_match_update
      [("repo_name", VStr "a"); ("sha", VStr "111")]
      [[("image-name", VStr "a"); ("git-sha256", VStr "111")];
       [("image-name", VStr "a"); ("git-sha256", VStr "999")]].
Proof. unfold first_match_update. cbv. discriminate. Qed.

(** C1, amended. For a record with both keys the matched entry is the
    first one in manifest order whose image-name equals the record's
    repo_name and whose git-sha256 differs from the record's sha;
    [update_yaml_field] is called, with the record's name and that entry's
    hash, exactly when there is such an entry.  With two entries of the
    record's name and different hashes, the record gets the hash of the
    first entry unless it is already pinned there, and then it gets the
    hash of the second. *)
Theorem first_stale_entry_is_matched :
  (forall (r : dict) (ents : list dict) (st : state),
      tracked r = true ->
      process_component (records ents) (VDict r) st =
      match find (stale_for r) ents with
      | Some e =>
          bind (call_update_yaml_field (get_field "repo_name" r)
                  (get_field "git-sha256" e))
            (fun _ => ret tt)
            (logging (LogShaMismatch (get_field "repo_name" r)
                        (get_field "sha" r) (get_field "git-sha256" e))
               (logging (LogChecking (get_field "repo_name" r)) st))
      | None =>
          (Ok tt,
           logging (LogNoMismatch (get_field "repo_name" r))
             (logging (LogChecking (get_field "repo_name" r)) st))
      end) /\
  (forall (r e : dict) (ents : list dict),
      find (stale_for r) ents = Some e <->
      exists pre post,
        ents = pre ++ e :: post /\
        Forall (fun x => stale_for r x = false) pre /\
        py_eq (get_field "image-name" e) (get_field "repo_name" r) = true /\
        py_ne (get_field "git-sha256" e) (get_field "sha" r) = true) /\
  (forall n s s1 s2 : string,
      s1 <> s2 ->
      run (records [[("repo_name", VStr n); ("sha", VStr s)]])
          (records [[("image-name", VStr n); ("git-sha256", VStr s1)];
                    [("image-name", VStr n); ("git-sha256", VStr s2)]])
          None
      = (Ok tt,
         mkState
           (records [[("repo_name", VStr n);
                      ("sha", VStr (if String.eqb s1 s then s2 else s1))]])
           [LogChecking (VStr n);
            LogShaMismatch (VStr n) (VStr s)
              (VStr (if String.eqb s1 s then s2 else s1));
            LogUpdating (VStr n)])).
Proof.
  split; [|split].
  - intros r ents st Ht. unfold tracked in Ht. apply andb_true_iff in Ht.
    destruct Ht as [Hs Hn].
    unfold process_component. cbn [py_in].
    unfold bind at 1, lift at 1. rewrite Hs.
    unfold bind at 1, lift at 1. rewrite Hn.
    rewrite !py_get_dict. unfold bind at 1, lift at 1.
    unfold bind at 1, tell at 1.
    unfold records at 1. cbn [py_iter]. unfold bind at 1, lift at 1.
    unfold bind at 1. rewrite scan_manifest_records.
    destruct (find (stale_for r) ents) as [e|].
    + unfold bind.
      destruct (call_update_yaml_field _ _ _) as [[[]|x] st']; reflexivity.
    + reflexivity.
  - intros r e ents. rewrite find_first_split. unfold stale_for at 2.
    split; intros (pre & post & E & Hpre & H); exists pre, post.
    + apply andb_true_iff in H. tauto.
    + repeat split; try tauto. apply andb_true_iff. tauto.
  - intros n s s1 s2 Hne.
    rewrite run_reconcile. unfold records at 3.
    change (VList (map VDict [[("repo_name", VStr n); ("sha", VStr s)]]))
      with (records [[("repo_name", VStr n); ("sha", VStr s)]]).
    rewrite reconcile_records. cbn [selected app].
    unfold pass_disk. cbn [fold_left pass_events].
    unfold step_disk, step_events, first_stale.
    change (tracked [("repo_name", VStr n); ("sha", VStr s)]) with true.
    cbn [find]. unfold stale_for.
    rewrite !get_field_record_name, !get_field_record_sha.
    change (get_field "image-name"
              [("image-name", VStr n); ("git-sha256", VStr s1)])
      with (VStr n).
    change (get_field "image-name"
              [("image-name", VStr n); ("git-sha256", VStr s2)])
      with (VStr n).
    change (get_field "git-sha256"
              [("image-name", VStr n); ("git-sha256", VStr s1)])
      with (VStr s1).
    change (get_field "git-sha256"
              [("image-name", VStr n); ("git-sha256", VStr s2)])
      with (VStr s2).
    unfold py_ne. cbn [py_eq]. rewrite String.eqb_refl. cbn [andb].
    assert (P : forall w,
               patch_records (VStr n) w
                 [[("repo_name", VStr n); ("sha", VStr s)]]
               = [[("repo_name", VStr n); ("sha", w)]]).
    { intros w. cbn [patch_records]. unfold patch_target.
      change (dict_lookup "repo_name" [("repo_name", VStr n); ("sha", VStr s)])
        with (Some (VStr n)).
      cbn [py_eq]. rewrite String.eqb_refl. reflexivity. }
    assert (Q : patch_events (VStr n)
                  [[("repo_name", VStr n); ("sha", VStr s)]]
                = [LogUpdating (VStr n)]).
    { unfold patch_events. cbn [existsb]. unfold patch_target.
      change (dict_lookup "repo_name" [("repo_name", VStr n); ("sha", VStr s)])
        with (Some (VStr n)).
      cbn [py_eq]. rewrite String.eqb_refl. reflexivity. }
    destruct (String.eqb s1 s) eqn:E1; cbn [negb].
    + apply String.eqb_eq in E1. subst s1.
      destruct (String.eqb s2 s) eqn:E2.
      * apply String.eqb_eq in E2. congruence.
      * cbn [negb]. rewrite P, Q. reflexivity.
    + rewrite P, Q. reflexivity.
Qed.

Lemma first_stale_entry_is_matched_witness :
  process_component
    (records [[("image-name", VStr "a"); ("git-sha256", VStr "111")];
              [("image-name", VStr "a"); ("git-sha256", VStr "999")]])
    (VDict [("repo_name", VStr "a"); ("sha", VStr "111")])
    (mkState (records [[("repo_name", VStr "a"); ("sha", VStr "111")]]) [])
  = (Ok tt,
     mkState (records [[("repo_name", VStr "a"); ("sha", VStr "999")]])
       [LogChecking (VStr "a");
        LogShaMismatch (VStr "a") (VStr "111") (VStr "999");
        LogUpdating (VStr "a")])
  /\
  run (records [[("repo_name", VStr "a"); ("sha", VStr "111")]])
      (records [[("image-name", VStr "a"); ("git-sha256", VStr "111")];
                [("image-name", VStr "a"); ("git-sha256", VStr "999")]])
      None
  = (Ok tt,
     mkState (records [[("repo_name", VStr "a"); ("sha", VStr "999")]])
       [LogChecking (VStr "a");
        LogShaMismatch (VStr "a") (VStr "111") (VStr "999");
        LogUpdating (VStr "a")]).
Proof.
  split.
  - rewrite (proj1 first_stale_entry_is_matched
               [("repo_name", VStr "a"); ("sha", VStr "111")]
               [[("image-name", VStr "a"); ("git-sha256", VStr "111")];
                [("image-name", VStr "a"); ("git-sha256", VStr "999")]]
               (mkState
                  (records [[("repo_name", VStr "a"); ("sha", VStr "111")]])
                  [])
               eq_refl).
    reflexivity.
  - apply (proj2 (proj2 first_stale_entry_is_matched) "a" "111" "111" "999").
    discriminate.
Defined.

(** ** A configuration in a ["components"] wrapper *)

(** C3. On a wrapper document the stale record is found by [main] and
    [update_yaml_field] is called, but the loop of [update_yaml_field]
    goes over the keys of the wrapper: nothing is assigned, the file is
    written back as it was.  The same records as a bare list are patched. *)
Lemma wrapper_config_is_not_patched :
  run (VDict [("components",
               records [[("repo_name", VStr "a"); ("sha", VStr "111")]])])
      (records [[("image-name", VStr "a"); ("git-sha256", VStr "999")]])
      None
  = (Ok tt,
     mkState
       (VDict [("components",
                records [[("repo_name", VStr "a"); ("sha", VStr "111")]])])
       [LogChecking (VStr "a");
        LogShaMismatch (VStr "a") (VStr "111") (VStr "999")])
  /\
  run (records [[("repo_name", VStr "a"); ("sha", VStr "111")]])
      (records [[("image-name", VStr "a"); ("git-sha256", VStr "999")]])
      None
  = (Ok tt,
     mkState (records [[("repo_name", VStr "a"); ("sha", VStr "999")]])
       [LogChecking (VStr "a");
        LogShaMismatch (VStr "a") (VStr "111") (VStr "999");
        LogUpdating (VStr "a")]).
Proof. split; reflexivity. Qed.

(** A wrapper with a key that contains ["repo_name"]: the call raises. *)
Example wrapper_key_raises :
  update_yaml_field (VStr "a") (VStr "999")
    (mkState (VDict [("repo_name_prefix", VStr "x");
                     ("components", records [])]) [])
  = Raise TypeError.
Proof. reflexivity. Qed.

(** ** The manifest fetcher *)

(** A pattern without wildcard characters is answered as [glob.glob]
    answers it. *)
Lemma bracket_glob_literal p :
  has_magic p = false ->
  bracket_glob p = if bracket_lexists p then [p] else [].
Proof. intros H. unfold bracket_glob. now rewrite H. Qed.

(** C10. The fetcher hands the directory path to [glob.glob] as part of
    the pattern, unescaped: in the clone directory [tmp/r[1]/.], which
    holds [manifest.json], the pattern names nothing and the fetcher
    returns [None], where its docstring promises the path of the manifest
    of that directory. *)
Lemma bracket_directory_manifest_not_found :
  bracket_lexists (os_path_join "tmp/r[1]/." "manifest.json") = true /\
  fetch_latest_manifest bracket_glob "tmp/r[1]/." = None /\
  ~ fetch_finds_manifest bracket_lexists bracket_glob "tmp/r[1]/.".
Proof.
  split; [reflexivity|]. split; [reflexivity|].
  unfold fetch_finds_manifest. cbv. discriminate.
Qed.

(** ** Equality of scalars *)

Lemma py_eq_refl_scalar a : scalar a = true -> py_eq a a = true.
Proof.
  destruct a; cbn; try discriminate; intros _; auto.
  - now destruct b.
  - apply Z.eqb_refl.
  - apply String.eqb_refl.
Qed.

Lemma py_eq_scalar_l a b : py_eq a b = true -> scalar b = true -> scalar a = true.
Proof. destruct a, b; cbn; congruence. Qed.

Lemma py_eq_scalar_r a b : py_eq a b = true -> scalar a = true -> scalar b = true.
Proof. destruct a, b; cbn; congruence. Qed.

Lemma py_eq_sym_scalar a b : scalar a = true -> py_eq a b = py_eq b a.
Proof.
  destruct a, b; cbn; try discriminate; intros _;
    auto using Z.eqb_sym, String.eqb_sym.
  all: try (now destruct b, b0); try (now destruct l).
Qed.

Lemma py_eq_trans_scalar a b c :
  scalar b = true ->
  py_eq a b = true -> py_eq b c = true -> py_eq a c = true.
Proof.
  intros Hb Hab Hbc.
  pose proof (py_eq_scalar_l _ _ Hab Hb) as Ha.
  pose proof (py_eq_scalar_r _ _ Hbc Hb) as Hc.
  destruct a, b, c; cbn in *; try discriminate;
    repeat match goal with
      | H : Bool.eqb _ _ = true |- _ => apply Bool.eqb_prop in H; subst
      | H : Z.eqb _ _ = true |- _ => apply Z.eqb_eq in H; subst
      | H : String.eqb _ _ = true |- _ => apply String.eqb_eq in H; subst
      end;
    auto using Z.eqb_refl, String.eqb_refl, Bool.eqb_reflx.
  all: repeat match goal with x : bool |- _ => destruct x end;
    cbn in *; congruence.
Qed.

(** Names that are equal pick the same records and the same entries. *)
Lemma py_eq_same_class a b x :
  scalar a = true -> py_eq a b = true -> py_eq x a = py_eq x b.
Proof.
  intros Ha Hab. pose proof (py_eq_scalar_r _ _ Hab Ha) as Hb.
  destruct (py_eq x a) eqn:E1.
  - symmetry. now apply py_eq_trans_scalar with a.
  - destruct (py_eq x b) eqn:E2; [|reflexivity].
    rewrite <- E1. apply py_eq_trans_scalar with b; auto.
    now rewrite <- py_eq_sym_scalar.
Qed.

(** ** A pass over records of distinct names *)

Lemma patch_target_tracked n r :
  patch_target n r = tracked r && py_eq (get_field "repo_name" r) n.
Proof.
  unfold patch_target, tracked, get_field, dict_mem.
  destruct (dict_lookup "repo_name" r) as [v|].
  - destruct (dict_lookup "sha" r); cbn [andb].
    + now rewrite andb_true_r.
    + now rewrite andb_false_r.
  - now rewrite andb_false_r.
Qed.

Lemma sha_is_not_repo_name : "repo_name" <> "sha".
Proof. discriminate. Qed.

Lemma get_field_name_set_sha w r :
  get_field "repo_name" (dict_set "sha" w r) = get_field "repo_name" r.
Proof.
  unfold get_field.
  now rewrite dict_lookup_set_other by exact sha_is_not_repo_name.
Qed.


Lemma first_stale_tracked ents r e :
  first_stale ents r = Some e ->
  tracked r = true /\ find (stale_for r) ents = Some e.
Proof.
  unfold first_stale. destruct (tracked r); [auto|discriminate].
Qed.



Lemma pass_disk_cons ents r todo on_disk :
  pass_disk ents (r :: todo) on_disk =
  pass_disk ents todo (step_disk ents r on_disk).
Proof. reflexivity. Qed.









(** ** Patches that change nothing *)

Lemma dict_set_idem k w d : dict_set k w (dict_set k w d) = dict_set k w d.
Proof.
  induction d as [|[k' v'] d IH]; cbn [dict_set].
  - now rewrite String.eqb_refl.
  - destruct (String.eqb k k') eqn:E; cbn [dict_set]; rewrite E; congruence.
Qed.

Lemma patch_target_set_sha m w r :
  dict_mem "sha" r = true ->
  patch_target m (dict_set "sha" w r) = patch_target m r.
Proof.
  intros H. unfold patch_target.
  rewrite dict_lookup_set_other by exact sha_is_not_repo_name.
  now rewrite dict_mem_set_same, H.
Qed.

Lemma patch_records_idem n w on_disk :
  patch_records n w (patch_records n w on_disk) = patch_records n w on_disk.
Proof.
  induction on_disk as [|r rest IH]; [reflexivity|].
  cbn [patch_records]. destruct (patch_target n r) eqn:T;
    cbn [patch_records].
  - rewrite patch_target_set_sha by now apply patch_target_has_sha with n.
    now rewrite T, dict_set_idem.
  - now rewrite T, IH.
Qed.

(** A patch that changes nothing still changes nothing after another
    patch, when the two write one value wherever they meet. *)
Lemma patch_records_absorb m v n w on_disk :
  (forall r, In r on_disk ->
             patch_target n r = true -> patch_target m r = true -> v = w) ->
  patch_records m v on_disk = on_disk ->
  patch_records m v (patch_records n w on_disk) = patch_records n w on_disk.
Proof.
  induction on_disk as [|r rest IH]; intros Hmeet Hfix; [reflexivity|].
  cbn [patch_records] in *.
  destruct (patch_target n r) eqn:Tn; destruct (patch_target m r) eqn:Tm;
    cbn [patch_records].
  - rewrite patch_target_set_sha by now apply patch_target_has_sha with n.
    rewrite Tm. rewrite (Hmeet r (or_introl eq_refl) Tn Tm).
    now rewrite dict_set_idem.
  - rewrite patch_target_set_sha by now apply patch_target_has_sha with n.
    rewrite Tm. inversion Hfix as [E]. now rewrite !E.
  - rewrite Tm. inversion Hfix as [E]. now rewrite !E.
  - rewrite Tm. inversion Hfix as [E]. rewrite !E. f_equal.
    apply IH; auto. intros x Hx. apply Hmeet. now right.
Qed.

Lemma patch_records_class n1 n2 w on_disk :
  scalar n1 = true -> py_eq n1 n2 = true ->
  patch_records n1 w on_disk = patch_records n2 w on_disk.
Proof.
  intros Hs He.
  assert (T : forall r, patch_target n1 r = patch_target n2 r).
  { intros r. unfold patch_target.
    destruct (dict_lookup "repo_name" r) as [x|]; [|reflexivity].
    now rewrite (py_eq_same_class n1 n2 x). }
  induction on_disk as [|r rest IH]; [reflexivity|].
  cbn [patch_records]. rewrite <- T. now rewrite IH.
Qed.

(** Record by record, what a patch does. *)
Lemma patch_records_pointwise n w on_disk :
  Forall2 (fun x x' =>
             x' = x \/ (patch_target n x = true /\ x' = dict_set "sha" w x))
          on_disk (patch_records n w on_disk).
Proof.
  induction on_disk as [|r rest IH]; [constructor|].
  cbn [patch_records]. destruct (patch_target n r) eqn:T.
  - constructor; [now right|].
    clear. induction rest; constructor; auto.
  - constructor; auto.
Qed.

Lemma pass_disk_fixed ents components on_disk :
  (forall c e, In c components -> tracked c = true ->
               find (stale_for c) ents = Some e ->
               patch_records (get_field "repo_name" c)
                 (get_field "git-sha256" e) on_disk = on_disk) ->
  pass_disk ents components on_disk = on_disk.
Proof.
  induction components as [|c rest IH]; intros H; [reflexivity|].
  rewrite pass_disk_cons.
  assert (E : step_disk ents c on_disk = on_disk).
  { unfold step_disk. destruct (first_stale ents c) as [e|] eqn:F;
      [|reflexivity].
    apply first_stale_tracked in F. destruct F as [T F].
    apply (H c e); auto. now left. }
  rewrite E. apply IH. intros c' e' Hin. apply H. now right.
Qed.

Lemma Forall2_In_r {A B} (R : A -> B -> Prop) l l' y :
  Forall2 R l l' -> In y l' -> exists x, In x l /\ R x y.
Proof.
  induction 1 as [|a b l l' Hab _ IH]; intros Hin; [destruct Hin|].
  destruct Hin as [<-|Hin].
  - exists a. split; [now left|exact Hab].
  - destruct (IH Hin) as (x & Hx & Hr). exists x. split; [now right|exact Hr].
Qed.

Lemma Forall2_compose {A B C} (R : A -> B -> Prop) (S : B -> C -> Prop)
  (T : A -> C -> Prop) l1 l2 l3 :
  (forall a b c, R a b -> S b c -> T a c) ->
  Forall2 R l1 l2 -> Forall2 S l2 l3 -> Forall2 T l1 l3.
Proof.
  intros H H12. revert l3.
  induction H12 as [|a b l1 l2 Hab _ IH]; intros l3 H23;
    inversion H23; subst; constructor; eauto.
Qed.

Lemma selected_In component (l : list dict) x :
  In x (selected component l) -> In x l.
Proof.
  unfold selected. destruct component as [c|]; auto.
  destruct (String.eqb c ""); auto.
  intros H. apply filter_In in H. tauto.
Qed.

Lemma selected_transfer component (l l' : list dict) x :
  In x l -> In x (selected component l') -> In x (selected component l).
Proof.
  unfold selected. destruct component as [c|]; auto.
  destruct (String.eqb c ""); auto.
  intros Hl H. apply filter_In in H. apply filter_In. tauto.
Qed.

(** ** A second pass against a consistent manifest *)

Section Idempotence.

Variable ents : list dict.
Hypothesis consistent : consistent_manifest ents.
Hypothesis hashes : scalar_hashes ents.

(** The entry a stale record is matched with is the first of its name. *)
Lemma first_stale_is_first_named c e :
  scalar (get_field "repo_name" c) = true ->
  find (stale_for c) ents = Some e ->
  first_named (get_field "repo_name" c) ents = Some e.
Proof.
  intros Hn F. unfold first_named.
  apply find_first_split in F.
  destruct F as (pre & post & E & Hpre & He).
  apply find_first_split. exists pre, post.
  unfold stale_for in He. apply andb_true_iff in He.
  destruct He as [Hname Hsha].
  repeat split; auto.
  rewrite Forall_forall in *. intros x Hx.
  apply not_true_is_false. intros Hxn.
  assert (Ix : In x ents) by (rewrite E; apply in_or_app; now left).
  assert (Ie : In e ents)
    by (rewrite E; apply in_or_app; right; now left).
  pose proof (Hpre x Hx) as Sx. unfold stale_for in Sx.
  rewrite Hxn in Sx. cbn [andb] in Sx. unfold py_ne in Sx.
  apply negb_false_iff in Sx.
  assert (Hxe : py_eq (get_field "image-name" x)
                  (get_field "image-name" e) = true).
  { apply py_eq_trans_scalar with (get_field "repo_name" c); auto.
    now rewrite py_eq_sym_scalar. }
  pose proof (consistent x e Ix Ie Hxe) as Hsh.
  pose proof (proj1 (Forall_forall _ _) hashes x Ix) as Hsx.
  cbv beta in Hsx.
  unfold py_ne in Hsha. apply negb_true_iff in Hsha.
  assert (C : py_eq (get_field "git-sha256" e) (get_field "sha" c) = true).
  { apply py_eq_trans_scalar with (get_field "git-sha256" x); auto.
    now rewrite <- py_eq_sym_scalar. }
  congruence.
Qed.

Lemma first_named_class n1 n2 :
  scalar n1 = true -> py_eq n1 n2 = true ->
  first_named n1 ents = first_named n2 ents.
Proof.
  intros Hs He. unfold first_named. clear consistent hashes.
  induction ents as [|x l IH]; [reflexivity|]. cbn [find].
  rewrite (py_eq_same_class n1 n2 (get_field "image-name" x)) by assumption.
  now rewrite IH.
Qed.

(** Two stale components whose patches meet on a record write one
    hash. *)
Lemma meeting_patches_agree c1 e1 c2 e2 r :
  scalar (get_field "repo_name" c1) = true ->
  scalar (get_field "repo_name" c2) = true ->
  find (stale_for c1) ents = Some e1 ->
  find (stale_for c2) ents = Some e2 ->
  patch_target (get_field "repo_name" c1) r = true ->
  patch_target (get_field "repo_name" c2) r = true ->
  e1 = e2.
Proof.
  intros S1 S2 F1 F2 T1 T2.
  apply first_stale_is_first_named in F1; auto.
  apply first_stale_is_first_named in F2; auto.
  rewrite patch_target_tracked in T1, T2.
  apply andb_true_iff in T1, T2. destruct T1 as [_ T1], T2 as [_ T2].
  assert (E : py_eq (get_field "repo_name" c1) (get_field "repo_name" c2)
              = true).
  { apply py_eq_trans_scalar with (get_field "repo_name" r).
    - now apply py_eq_scalar_l with (get_field "repo_name" c1).
    - now rewrite py_eq_sym_scalar.
    - exact T2. }
  rewrite (first_named_class _ _ S1 E) in F1. congruence.
Qed.

Variable recs : list dict.
Hypothesis names : scalar_names recs.

Lemma name_of_loaded_scalar c :
  In c recs -> scalar (get_field "repo_name" c) = true.
Proof. intros H. exact (proj1 (Forall_forall _ _) names c H). Qed.

Lemma pass_inv_ext (done done' : dict -> Prop) on_disk :
  (forall x, done x <-> done' x) ->
  pass_inv ents recs done on_disk -> pass_inv ents recs done' on_disk.
Proof.
  intros Hext [H1 H2]. split.
  - eapply Forall2_impl; [|exact H1].
    intros r r' [->|(c & e & Hc & H)]; [now left|right].
    exists c, e. split; [now apply Hext|exact H].
  - intros c e Hc. apply H2. now apply Hext.
Qed.

(** The invariant is kept by the processing of one component. *)
Lemma pass_inv_step (done : dict -> Prop) on_disk c :
  (forall x, done x -> In x recs) -> In c recs ->
  pass_inv ents recs done on_disk ->
  pass_inv ents recs (fun x => done x \/ x = c) (step_disk ents c on_disk).
Proof.
  intros Hdone Hc [H1 H2].
  pose proof (name_of_loaded_scalar c Hc) as Sc.
  unfold step_disk. destruct (first_stale ents c) as [e|] eqn:F.
  - apply first_stale_tracked in F. destruct F as [T F].
    split.
    + eapply Forall2_compose;
        [|exact H1|apply patch_records_pointwise].
      cbv beta. intros r x x' Hr [->|[Tx ->]].
      * destruct Hr as [->|(c0 & e0 & Hc0 & H)]; [now left|right].
        exists c0, e0. split; [now left|exact H].
      * right. exists c, e. repeat split; auto.
        rewrite get_field_name_set_sha.
        rewrite patch_target_tracked in Tx.
        apply andb_true_iff in Tx. tauto.
    + intros c0 e0 [Hc0| ->] T0 F0.
      * apply patch_records_absorb; [|now apply H2].
        intros r _ Tn Tm. f_equal.
        apply (meeting_patches_agree c0 e0 c e r); auto.
        apply name_of_loaded_scalar. now apply Hdone.
      * assert (e0 = e) by congruence. subst e0.
        apply patch_records_idem.
  - split.
    + eapply Forall2_impl; [|exact H1].
      intros r r' [->|(c0 & e0 & Hc0 & H)]; [now left|right].
      exists c0, e0. split; [now left|exact H].
    + intros c0 e0 [Hc0| ->] T0 F0; [now apply H2|].
      unfold first_stale in F. rewrite T0 in F. congruence.
Qed.

Lemma pass_inv_pass components :
  forall (done : dict -> Prop) on_disk,
    (forall x, done x -> In x recs) ->
    (forall x, In x components -> In x recs) ->
    pass_inv ents recs done on_disk ->
    pass_inv ents recs (fun x => done x \/ In x components)
      (pass_disk ents components on_disk).
Proof.
  induction components as [|c rest IH]; intros done on_disk Hdone Hcs Hinv.
  - eapply pass_inv_ext; [|exact Hinv]. intros x. cbn [In]. tauto.
  - rewrite pass_disk_cons.
    eapply pass_inv_ext;
      [|apply (IH (fun x => done x \/ x = c))].
    + intros x. cbn [In]. intuition.
    + intros x [Hx| ->]; [now apply Hdone|]. apply Hcs. now left.
    + intros x Hx. apply Hcs. now right.
    + apply pass_inv_step; auto. apply Hcs. now left.
Qed.

(** After a pass, a second one changes nothing. *)
Lemma second_pass_fixed component :
  let written := pass_disk ents (selected component recs) recs in
  pass_disk ents (selected component written) written = written.
Proof.
  cbv zeta.
  set (written := pass_disk ents (selected component recs) recs).
  assert (Hinv : pass_inv ents recs
                   (fun x => False \/ In x (selected component recs))
                   written).
  { apply pass_inv_pass.
    - intros x [].
    - intros x. apply selected_In.
    - split.
      + clear. induction recs; constructor; auto. now left.
      + intros c e []. }
  destruct Hinv as [H1 H2].
  apply pass_disk_fixed. intros c' e' Hin T' F'.
  pose proof (selected_In _ _ _ Hin) as Hw.
  destruct (Forall2_In_r _ _ _ _ H1 Hw) as (r & Hr & [->|Hp]).
  - apply (H2 r e'); auto. right.
    now apply selected_transfer with written.
  - destruct Hp as (c & e & [[]|Hc] & Tc & Fc & Hn).
    pose proof (name_of_loaded_scalar c (selected_In _ _ _ Hc)) as Sc.
    pose proof (py_eq_scalar_l _ _ Hn Sc) as Sc'.
    pose proof (first_stale_is_first_named c' e' Sc' F') as N'.
    pose proof (first_stale_is_first_named c e Sc Fc) as N.
    rewrite (first_named_class _ _ Sc' Hn) in N'.
    assert (e' = e) by congruence. subst e'.
    rewrite (patch_records_class _ _ _ _ Sc' Hn).
    apply (H2 c e); auto.
Qed.

End Idempotence.

(** C2, as stated, fails: against a manifest with two entries of one
    name and different hashes, the first run moves the record from the
    first hash to the second and the second run moves it back. *)
Lemma second_run_moves_record_back :
  ~ pass_fixed_point
      (records [[("repo_name", VStr "a"); ("sha", VStr "111")]])
      (records [[("image-name", VStr "a"); ("git-sha256", VStr "111")];
                [("image-name", VStr "a"); ("git-sha256", VStr "999")]])
      None.
Proof. unfold pass_fixed_point. cbv. discriminate. Qed.

(** C2, amended. For a bare list of records with scalar repo_names and a
    manifest with scalar hashes in which entries of one image-name carry
    one git-sha256, a run raises nothing and the configuration it writes
    is a fixed point: a second run against the same manifest raises
    nothing and leaves the file as the first run wrote it. *)
Theorem second_run_is_noop (recs ents : list dict)
  (component : option string) :
  scalar_names recs -> scalar_hashes ents -> consistent_manifest ents ->
  exists written,
    fst (run (records recs) (records ents) component) = Ok tt /\
    disk (snd (run (records recs) (records ents) component))
    = records written /\
    fst (run (records written) (records ents) component) = Ok tt /\
    disk (snd (run (records written) (records ents) component))
    = records written /\
    pass_fixed_point (records recs) (records ents) component.
Proof.
  intros Hn Hh Hc.
  exists (pass_disk ents (selected component recs) recs).
  pose proof (second_pass_fixed ents Hc Hh recs Hn component) as F.
  cbv zeta in F.
  unfold pass_fixed_point. cbv zeta.
  rewrite !run_reconcile, !reconcile_records.
  cbn [fst snd disk]. rewrite !reconcile_records.
  cbn [fst snd disk]. rewrite F. repeat split; reflexivity.
Qed.

Lemma second_run_is_noop_witness :
  exists written,
    fst (run (records [[("repo_name", VStr "a"); ("sha", VStr "111")];
                       [("repo_name", VStr "a"); ("sha", VStr "111")]])
           (records [[("image-name", VStr "a"); ("git-sha256", VStr "999")]])
           None) = Ok tt /\
    disk (snd (run (records [[("repo_name", VStr "a"); ("sha", VStr "111")];
                             [("repo_name", VStr "a"); ("sha", VStr "111")]])
                 (records [[("image-name", VStr "a");
                            ("git-sha256", VStr "999")]])
                 None))
    = records written /\
    fst (run (records written)
           (records [[("image-name", VStr "a"); ("git-sha256", VStr "999")]])
           None) = Ok tt /\
    disk (snd (run (records written)
                 (records [[("image-name", VStr "a");
                            ("git-sha256", VStr "999")]])
                 None))
    = records written /\
    pass_fixed_point
      (records [[("repo_name", VStr "a"); ("sha", VStr "111")];
                [("repo_name", VStr "a"); ("sha", VStr "111")]])
      (records [[("image-name", VStr "a"); ("git-sha256", VStr "999")]])
      None.
Proof.
  apply (second_run_is_noop
           [[("repo_name", VStr "a"); ("sha", VStr "111")];
            [("repo_name", VStr "a"); ("sha", VStr "111")]]
           [[("image-name", VStr "a"); ("git-sha256", VStr "999")]]
           None).
  - repeat constructor.
  - repeat constructor.
  - intros e1 e2 [<-|[]] [<-|[]] _. reflexivity.
Defined.

(** * Further properties of [update_yaml_field] *)

Lemma dict_set_overwrite k w1 w2 d :
  dict_set k w2 (dict_set k w1 d) = dict_set k w2 d.
Proof.
  induction d as [|[k' v'] d IH]; cbn [dict_set].
  - now rewrite String.eqb_refl.
  - destruct (String.eqb k k') eqn:E; cbn [dict_set]; rewrite E; congruence.
Qed.

Lemma patch_records_overwrite n w1 w2 on_disk :
  patch_records n w2 (patch_records n w1 on_disk) = patch_records n w2 on_disk.
Proof.
  induction on_disk as [|r rest IH]; [reflexivity|].
  cbn [patch_records]. destruct (patch_target n r) eqn:T;
    cbn [patch_records].
  - rewrite patch_target_set_sha by now apply patch_target_has_sha with n.
    now rewrite T, dict_set_overwrite.
  - now rewrite T, IH.
Qed.

(** X1. Two patches for one name: the second overwrites the first.  On a
    list of records, [update_yaml_field] for a name with one hash and then
    with another leaves the file as the second call alone would; so a
    repeated call changes nothing more. *)
Theorem update_yaml_field_last_write_wins (recs : list dict)
  (name w1 w2 : value) (lg : list event) :
  exists st1 st2 st2',
    update_yaml_field name w1 (mkState (records recs) lg) = Ok st1 /\
    update_yaml_field name w2 st1 = Ok st2 /\
    update_yaml_field name w2 (mkState (records recs) lg) = Ok st2' /\
    disk st2 = disk st2'.
Proof.
  rewrite !update_yaml_field_records.
  eexists. eexists. eexists. split; [reflexivity|].
  rewrite update_yaml_field_records. split; [reflexivity|].
  split; [reflexivity|]. cbn [disk].
  now rewrite patch_records_overwrite.
Qed.

Lemma find_patched n w recs :
  existsb (patch_target n) recs = true ->
  exists r,
    find (patch_target n) (patch_records n w recs) = Some r /\
    dict_lookup "sha" r = Some w.
Proof.
  induction recs as [|x recs IH]; cbn [existsb]; [discriminate|].
  cbn [patch_records]. destruct (patch_target n x) eqn:T; cbn [orb find].
  - intros _. exists (dict_set "sha" w x).
    rewrite patch_target_set_sha by now apply patch_target_has_sha with n.
    rewrite T. split; [reflexivity|]. apply dict_lookup_set_same.
  - rewrite T. exact IH.
Qed.

(** X2. A patch can be read back: when some record is named by the key
    and has a ["sha"] key, the document written by [update_yaml_field] is
    a list of records in which the first record so named holds the new
    hash under ["sha"]. *)
Theorem update_yaml_field_read_back (recs : list dict) (name new : value)
  (lg : list event) :
  existsb (patch_target name) recs = true ->
  exists recs' r,
    update_yaml_field name new (mkState (records recs) lg)
    = Ok (mkState (records recs') (lg ++ [LogUpdating name])) /\
    find (patch_target name) recs' = Some r /\
    dict_lookup "sha" r = Some new.
Proof.
  intros H. destruct (find_patched name new recs H) as (r & F & L).
  exists (patch_records name new recs), r.
  rewrite update_yaml_field_records. unfold patch_events. rewrite H. auto.
Qed.

Lemma update_yaml_field_read_back_witness :
  exists recs' r,
    update_yaml_field (VStr "b") (VStr "999")
      (mkState (records [[("repo_name", VStr "a"); ("sha", VStr "111")];
                         [("repo_name", VStr "b"); ("sha", VStr "222")]]) [])
    = Ok (mkState (records recs') ([] ++ [LogUpdating (VStr "b")])) /\
    find (patch_target (VStr "b")) recs' = Some r /\
    dict_lookup "sha" r = Some (VStr "999").
Proof.
  apply (update_yaml_field_read_back
           [[("repo_name", VStr "a"); ("sha", VStr "111")];
            [("repo_name", VStr "b"); ("sha", VStr "222")]]
           (VStr "b") (VStr "999") []).
  reflexivity.
Defined.

Lemma patch_records_commute n1 w1 n2 w2 recs :
  Forall (fun r => patch_target n1 r && patch_target n2 r = false) recs ->
  patch_records n2 w2 (patch_records n1 w1 recs) =
  patch_records n1 w1 (patch_records n2 w2 recs).
Proof.
  induction 1 as [|r recs Hr _ IH]; [reflexivity|].
  cbn [patch_records].
  destruct (patch_target n1 r) eqn:T1; destruct (patch_target n2 r) eqn:T2;
    cbn [andb] in Hr; try discriminate; cbn [patch_records].
  - rewrite patch_target_set_sha by now apply patch_target_has_sha with n1.
    now rewrite T2, T1.
  - rewrite patch_target_set_sha by now apply patch_target_has_sha with n2.
    now rewrite T1, T2.
  - now rewrite T1, T2, IH.
Qed.

(** X3. Patches for different names commute: when no record is named by
    both keys, the two calls of [update_yaml_field] leave the same file in
    either order. *)
Theorem update_yaml_field_commute (recs : list dict)
  (n1 w1 n2 w2 : value) (lg : list event) :
  Forall (fun r => patch_target n1 r && patch_target n2 r = false) recs ->
  exists a1 a2 b1 b2,
    update_yaml_field n1 w1 (mkState (records recs) lg) = Ok a1 /\
    update_yaml_field n2 w2 a1 = Ok a2 /\
    update_yaml_field n2 w2 (mkState (records recs) lg) = Ok b1 /\
    update_yaml_field n1 w1 b1 = Ok b2 /\
    disk a2 = disk b2.
Proof.
  intros H. rewrite !update_yaml_field_records.
  eexists. eexists. eexists. eexists. split; [reflexivity|].
  rewrite update_yaml_field_records. split; [reflexivity|].
  split; [reflexivity|].
  rewrite update_yaml_field_records. split; [reflexivity|].
  cbn [disk]. now rewrite patch_records_commute.
Qed.

Lemma update_yaml_field_commute_witness :
  exists a1 a2 b1 b2,
    update_yaml_field (VStr "a") (VStr "999")
      (mkState (records [[("repo_name", VStr "a"); ("sha", VStr "111")];
                         [("repo_name", VStr "b"); ("sha", VStr "222")]]) [])
    = Ok a1 /\
    update_yaml_field (VStr "b") (VStr "888") a1 = Ok a2 /\
    update_yaml_field (VStr "b") (VStr "888")
      (mkState (records [[("repo_name", VStr "a"); ("sha", VStr "111")];
                         [("repo_name", VStr "b"); ("sha", VStr "222")]]) [])
    = Ok b1 /\
    update_yaml_field (VStr "a") (VStr "999") b1 = Ok b2 /\
    disk a2 = disk b2.
Proof.
  apply (update_yaml_field_commute
           [[("repo_name", VStr "a"); ("sha", VStr "111")];
            [("repo_name", VStr "b"); ("sha", VStr "222")]]
           (VStr "a") (VStr "999") (VStr "b") (VStr "888") []).
  repeat constructor.
Defined.

Lemma update_entries_skip pre rest name new :
  Forall (fun r => patch_target name r = false) pre ->
  update_entries (map VDict pre ++ rest) name new =
  let? x := update_entries rest name new in
  Ok (map VDict pre ++ fst x, snd x).
Proof.
  induction 1 as [|r pre Hr _ IH]; cbn [map app].
  - destruct (update_entries rest name new) as [[es evs]|e]; reflexivity.
  - rewrite update_entries_cons, Hr, IH.
    destruct (update_entries rest name new) as [[es evs]|e]; reflexivity.
Qed.



(** X5. An entry that is a null, a boolean or a number, met before any
    record the loop assigns to, makes [update_yaml_field] raise
    [TypeError]; the call then leaves the file and the log as they
    were. *)
Theorem update_yaml_field_bad_entry (pre : list dict) (bad : value)
  (post : list value) (name new : value) (st : state) :
  Forall (fun x => patch_target name x = false) pre ->
  not_iterable bad = true ->
  disk st = VList (map VDict pre ++ bad :: post) ->
  update_yaml_field name new st = Raise TypeError /\
  call_update_yaml_field name new st = (Raise TypeError, st).
Proof.
  intros Hpre Hbad Hdisk.
  assert (E : update_yaml_field name new st = Raise TypeError).
  { unfold update_yaml_field. rewrite Hdisk. cbn [py_iter rbind].
    rewrite update_entries_skip by exact Hpre.
    destruct bad; try discriminate Hbad; reflexivity. }
  split; [exact E|]. unfold call_update_yaml_field. now rewrite E.
Qed.

Lemma update_yaml_field_bad_entry_witness :
  let st := mkState
              (VList (map VDict [[("repo_name", VStr "b")]] ++
                      VNone ::
                      [VDict [("repo_name", VStr "a"); ("sha", VStr "111")]]))
              [] in
  update_yaml_field (VStr "a") (VStr "999") st = Raise TypeError /\
  call_update_yaml_field (VStr "a") (VStr "999") st = (Raise TypeError, st).
Proof.
  intros st.
  apply (update_yaml_field_bad_entry
           [[("repo_name", VStr "b")]] VNone
           [VDict [("repo_name", VStr "a"); ("sha", VStr "111")]]
           (VStr "a") (VStr "999") st).
  - repeat constructor.
  - reflexivity.
  - reflexivity.
Defined.

Lemma update_entries_raises entries name new e :
  update_entries entries name new = Raise e -> e = TypeError.
Proof.
  induction entries as [|entry rest IH]; [discriminate|].
  destruct entry as [| b | z | s | l | r].
  1-5: cbn [update_entries py_in py_getitem py_setitem rbind].
  1-3: intros H; inversion H; reflexivity.
  - destruct (is_substring "repo_name" s); cbn [rbind].
    + intros H. now inversion H.
    + destruct (update_entries rest name new) as [[es evs]|e'];
        cbn [rbind]; [discriminate|].
      intros H. inversion H; subst. now apply IH.
  - destruct (existsb (py_eq (VStr "repo_name")) l); cbn [rbind].
    + intros H. now inversion H.
    + destruct (update_entries rest name new) as [[es evs]|e'];
        cbn [rbind]; [discriminate|].
      intros H. inversion H; subst. now apply IH.
  - rewrite update_entries_cons.
    destruct (patch_target name r); [discriminate|].
    destruct (update_entries rest name new) as [[es evs]|e'];
      cbn [rbind]; [discriminate|].
    intros H. inversion H; subst. now apply IH.
Qed.

(** X6. [update_yaml_field] raises nothing but [TypeError]: the indexing
    [entry["repo_name"]] is guarded by the membership test, so no
    [KeyError] comes out of it, whatever document the file holds. *)
Theorem update_yaml_field_raises_type_error (name new : value)
  (st : state) (e : exn) :
  update_yaml_field name new st = Raise e -> e = TypeError.
Proof.
  unfold update_yaml_field.
  destruct (disk st) as [| b | z | s | l | d]; cbn [py_iter rbind];
    try (intros H; inversion H; reflexivity).
  - destruct (update_entries (chars s) name new) as [[es evs]|e'] eqn:U;
      cbn [rbind]; [discriminate|].
    intros H. inversion H; subst. now apply update_entries_raises in U.
  - destruct (update_entries l name new) as [[es evs]|e'] eqn:U;
      cbn [rbind]; [discriminate|].
    intros H. inversion H; subst. now apply update_entries_raises in U.
  - destruct (update_entries (map VStr (dict_keys d)) name new)
      as [[es evs]|e'] eqn:U; cbn [rbind]; [discriminate|].
    intros H. inversion H; subst. now apply update_entries_raises in U.
Qed.

Lemma update_yaml_field_raises_type_error_witness :
  update_yaml_field (VStr "a") (VStr "999")
    (mkState (VDict [("repo_name_prefix", VStr "x")]) [])
  = Raise TypeError /\
  TypeError = TypeError.
Proof.
  split; [reflexivity|]. symmetry.
  apply (update_yaml_field_raises_type_error (VStr "a") (VStr "999")
           (mkState (VDict [("repo_name_prefix", VStr "x")]) []) TypeError).
  reflexivity.
Defined.

(** * Further properties of the pass *)

Lemma reconcile_bare_list (recs : list dict) (m : value)
  (component : option string) st :
  reconcile (records recs) m component st =
  for_components m (map VDict (selected component recs)) st.
Proof.
  unfold reconcile, selected. unfold records at 1. cbn [is_dict].
  unfold bind at 1, ret at 1.
  destruct component as [c|]; cbn [truthy].
  - destruct (String.eqb c ""); cbn [negb].
    + unfold bind at 1, ret at 1. cbn [py_iter].
      unfold bind at 1, lift at 1. reflexivity.
    + unfold bind at 1. unfold bind at 1, lift at 1.
      unfold records at 1. cbn [py_iter].
      unfold bind at 1, lift at 1.
      rewrite filter_components_records.
      unfold ret at 1. cbn [py_iter].
      unfold bind at 1, lift at 1. reflexivity.
  - unfold bind at 1, ret at 1. cbn [py_iter].
    unfold bind at 1, lift at 1. reflexivity.
Qed.

(** Record by record, what the processing of one component does. *)
Lemma step_disk_pointwise ents x on_disk :
  Forall2 (fun a b =>
             b = a \/
             exists e,
               first_stale ents x = Some e /\
               patch_target (get_field "repo_name" x) a = true /\
               b = dict_set "sha" (get_field "git-sha256" e) a)
          on_disk (step_disk ents x on_disk).
Proof.
  unfold step_disk. destruct (first_stale ents x) as [e|].
  - eapply Forall2_impl; [|apply patch_records_pointwise].
    cbv beta. intros a b [->|[T ->]]; [now left|right]. exists e. auto.
  - apply Forall2_same. now left.
Qed.




Lemma pass_up_to_date ents components :
  (forall c, In c components -> tracked c = true ->
             find (stale_for c) ents = None) ->
  forall on_disk,
    pass_disk ents components on_disk = on_disk /\
    pass_events ents components on_disk =
    flat_map (fun r => if tracked r
                       then [LogChecking (get_field "repo_name" r);
                             LogNoMismatch (get_field "repo_name" r)]
                       else []) components.
Proof.
  induction components as [|c rest IH]; intros H on_disk; [now split|].
  rewrite pass_disk_cons. cbn [pass_events flat_map].
  assert (S : step_disk ents c on_disk = on_disk /\
              step_events ents c on_disk =
              if tracked c
              then [LogChecking (get_field "repo_name" c);
                    LogNoMismatch (get_field "repo_name" c)]
              else []).
  { unfold step_disk, step_events, first_stale.
    destruct (tracked c) eqn:T; [|now split].
    now rewrite (H c (or_introl eq_refl) T). }
  destruct S as [-> ->].
  destruct (IH (fun x Hx => H x (or_intror Hx)) on_disk) as [-> ->].
  now split.
Qed.

(** X8. A configuration that is up to date: when no manifest entry has
    both the name of a record with both keys and a hash different from
    that record's, the run raises nothing, writes nothing (the file holds
    the records as loaded) and logs, for each component with both keys,
    the check and the absence of mismatch.  A component without manifest
    entry of its name is such a case. *)
Theorem up_to_date_run_is_noop (recs ents : list dict)
  (component : option string) :
  (forall r e, In r recs -> In e ents -> tracked r = true ->
               stale_for r e = false) ->
  run (records recs) (records ents) component
  = (Ok tt,
     mkState (records recs)
       (flat_map (fun r => if tracked r
                           then [LogChecking (get_field "repo_name" r);
                                 LogNoMismatch (get_field "repo_name" r)]
                           else [])
          (selected component recs))).
Proof.
  intros H. rewrite run_reconcile, reconcile_records.
  destruct (pass_up_to_date ents (selected component recs)) with (on_disk := recs)
    as [-> ->]; [|reflexivity].
  intros c Hc T. apply find_none_forall. apply Forall_forall.
  intros e He. apply H; auto. now apply selected_In with component.
Qed.

Lemma up_to_date_run_is_noop_witness :
  run (records [[("repo_name", VStr "a"); ("sha", VStr "111")];
                [("repo_name", VStr "c"); ("sha", VStr "333")]])
      (records [[("image-name", VStr "a"); ("git-sha256", VStr "111")];
                [("image-name", VStr "b"); ("git-sha256", VStr "888")]])
      None
  = (Ok tt,
     mkState (records [[("repo_name", VStr "a"); ("sha", VStr "111")];
                       [("repo_name", VStr "c"); ("sha", VStr "333")]])
       [LogChecking (VStr "a"); LogNoMismatch (VStr "a");
        LogChecking (VStr "c"); LogNoMismatch (VStr "c")]).
Proof.
  apply (up_to_date_run_is_noop
           [[("repo_name", VStr "a"); ("sha", VStr "111")];
            [("repo_name", VStr "c"); ("sha", VStr "333")]]
           [[("image-name", VStr "a"); ("git-sha256", VStr "111")];
            [("image-name", VStr "b"); ("git-sha256", VStr "888")]]
           None).
  intros r e [<-|[<-|[]]] [<-|[<-|[]]] _; reflexivity.
Defined.

Lemma process_component_untracked m r st :
  tracked r = false -> process_component m (VDict r) st = (Ok tt, st).
Proof.
  intros Ht. unfold tracked in Ht. unfold process_component. cbn [py_in].
  unfold bind at 1, lift at 1.
  destruct (dict_mem "sha" r); cbn [andb] in Ht; [|reflexivity].
  unfold bind at 1, lift at 1. now rewrite Ht.
Qed.

(** A manifest on which the comparison of every component with both keys
    raises at once: the pass stops on the first such component. *)
Lemma for_components_fault (m : value) (E : exn) :
  (forall r st, tracked r = true ->
                process_component m (VDict r) st =
                (Raise E, logging (LogChecking (get_field "repo_name" r)) st)) ->
  forall components st,
    for_components m (map VDict components) st =
    match find tracked components with
    | Some r =>
        (Raise E, logging (LogChecking (get_field "repo_name" r)) st)
    | None => (Ok tt, st)
    end.
Proof.
  intros H. induction components as [|r rest IH]; intros st; [reflexivity|].
  cbn [map for_components find]. unfold bind at 1.
  destruct (tracked r) eqn:T.
  - now rewrite (H r st T).
  - rewrite (process_component_untracked m r st T). apply IH.
Qed.

Lemma process_component_tracked m r st :
  tracked r = true ->
  process_component m (VDict r) st =
  bind (lift (py_iter m))
    (fun entries =>
       bind (scan_manifest entries (VDict r))
         (fun found_match =>
            if negb found_match
            then bind (lift (py_get (VDict r) "repo_name"))
                   (fun name => tell (LogNoMismatch name))
            else ret tt))
    (logging (LogChecking (get_field "repo_name" r)) st).
Proof.
  intros Ht. unfold tracked in Ht. apply andb_true_iff in Ht.
  destruct Ht as [Hs Hn].
  unfold process_component. cbn [py_in].
  unfold bind at 1, lift at 1. rewrite Hs.
  unfold bind at 1, lift at 1. rewrite Hn.
  rewrite py_get_dict. reflexivity.
Qed.

(** X9. A manifest that is not a sequence (a JSON null, boolean or
    number): a run over a bare list of records raises [TypeError] at the
    first component that has both keys, after logging its check, and
    raises nothing when no component has both keys; in either case the
    configuration file is not written. *)
Theorem run_manifest_not_iterable (recs : list dict) (m : value)
  (component : option string) :
  not_iterable m = true ->
  run (records recs) m component =
  match find tracked (selected component recs) with
  | Some r =>
      (Raise TypeError,
       mkState (records recs) [LogChecking (get_field "repo_name" r)])
  | None => (Ok tt, mkState (records recs) [])
  end.
Proof.
  intros Hm. rewrite run_reconcile, reconcile_bare_list.
  rewrite (for_components_fault m TypeError); [reflexivity|].
  intros r st T. rewrite process_component_tracked by exact T.
  destruct m; try discriminate Hm; reflexivity.
Qed.

Lemma run_manifest_not_iterable_witness :
  run (records [[("repo_name", VStr "x")];
                [("repo_name", VStr "a"); ("sha", VStr "111")]])
      VNone None
  = (Raise TypeError,
     mkState (records [[("repo_name", VStr "x")];
                       [("repo_name", VStr "a"); ("sha", VStr "111")]])
       [LogChecking (VStr "a")]).
Proof.
  apply (run_manifest_not_iterable
           [[("repo_name", VStr "x")];
            [("repo_name", VStr "a"); ("sha", VStr "111")]] VNone None).
  reflexivity.
Defined.

(** X10. A manifest whose first element is not an object (so also a
    manifest that is a JSON object with at least one key, whose elements
    are its keys): a run over a bare list of records raises
    [AttributeError] at the first component that has both keys, after
    logging its check, and raises nothing when no component has both
    keys; in either case the configuration file is not written. *)
Theorem run_manifest_entry_not_object (recs : list dict) (m first : value)
  (others : list value) (component : option string) :
  py_iter m = Ok (first :: others) ->
  is_dict first = false ->
  run (records recs) m component =
  match find tracked (selected component recs) with
  | Some r =>
      (Raise AttributeError,
       mkState (records recs) [LogChecking (get_field "repo_name" r)])
  | None => (Ok tt, mkState (records recs) [])
  end.
Proof.
  intros Hm Hf. rewrite run_reconcile, reconcile_bare_list.
  rewrite (for_components_fault m AttributeError); [reflexivity|].
  intros r st T. rewrite process_component_tracked by exact T.
  rewrite Hm. unfold bind at 1, lift at 1. cbn [scan_manifest].
  unfold bind at 1. unfold bind at 1, lift at 1.
  destruct first; try discriminate Hf; reflexivity.
Qed.

Lemma run_manifest_entry_not_object_witness :
  run (records [[("repo_name", VStr "a"); ("sha", VStr "111")]])
      (VDict [("a", VStr "999")]) None
  = (Raise AttributeError,
     mkState (records [[("repo_name", VStr "a"); ("sha", VStr "111")]])
       [LogChecking (VStr "a")]).
Proof.
  apply (run_manifest_entry_not_object
           [[("repo_name", VStr "a"); ("sha", VStr "111")]]
           (VDict [("a", VStr "999")]) (VStr "a") [] None).
  - reflexivity.
  - reflexivity.
Defined.

(** X11. A configuration that is not a sequence nor a mapping (an empty
    YAML file loads as null): the run raises [TypeError] when it starts to
    go over the components, with or without a [--component] filter;
    nothing is logged and the file is not written. *)
Theorem run_config_not_iterable (config m : value)
  (component : option string) :
  not_iterable config = true ->
  run config m component = (Raise TypeError, mkState config []).
Proof.
  intros Hc. rewrite run_reconcile. unfold reconcile.
  assert (D : is_dict config = false)
    by (destruct config; try discriminate Hc; reflexivity).
  assert (I : py_iter config = Raise TypeError)
    by (destruct config; try discriminate Hc; reflexivity).
  rewrite D. unfold bind at 1, ret at 1.
  destruct component as [c|]; cbn [truthy].
  - destruct (String.eqb c ""); cbn [negb].
    + unfold bind at 1, ret at 1. now rewrite I.
    + unfold bind at 1. unfold bind at 1. now rewrite I.
  - unfold bind at 1, ret at 1. now rewrite I.
Qed.

Lemma run_config_not_iterable_witness :
  run VNone (records [[("image-name", VStr "a"); ("git-sha256", VStr "9")]])
    (Some "a")
  = (Raise TypeError, mkState VNone []).
Proof.
  apply (run_config_not_iterable VNone
           (records [[("image-name", VStr "a"); ("git-sha256", VStr "9")]])
           (Some "a")).
  reflexivity.
Defined.

(** ** A configuration file that does not hold a list *)

Lemma keeps_file_ret {A} (a : A) : keeps_file (ret a).
Proof. intros st _. reflexivity. Qed.

Lemma keeps_file_lift {A} (r : result A) : keeps_file (lift r).
Proof. intros st _. reflexivity. Qed.

Lemma keeps_file_tell e : keeps_file (tell e).
Proof. intros st _. reflexivity. Qed.

Lemma keeps_file_bind {A B} (c : M A) (k : A -> M B) :
  keeps_file c -> (forall a, keeps_file (k a)) -> keeps_file (bind c k).
Proof.
  intros Hc Hk st Hst. unfold bind.
  pose proof (Hc st Hst) as E.
  destruct (c st) as [[a|e] st']; cbn [snd] in *; [|exact E].
  rewrite <- E. apply Hk. now rewrite E.
Qed.

Lemma keeps_file_call_update name new :
  keeps_file (call_update_yaml_field name new).
Proof.
  intros st Hst. unfold call_update_yaml_field, update_yaml_field.
  destruct (py_iter (disk st)) as [entries|e]; cbn [rbind]; [|reflexivity].
  destruct (update_entries entries name new) as [[es evs]|e];
    cbn [rbind snd]; [|reflexivity].
  cbn [save_yaml disk fst].
  destruct (disk st); try reflexivity. discriminate Hst.
Qed.

Lemma keeps_file_scan_manifest entries repo :
  keeps_file (scan_manifest entries repo).
Proof.
  induction entries as [|entry rest IH]; cbn [scan_manifest].
  - apply keeps_file_ret.
  - repeat (apply keeps_file_bind; [|intros ?]);
      try apply keeps_file_lift; try apply keeps_file_ret.
    + destruct (py_eq a a0); [|apply keeps_file_ret].
      repeat (apply keeps_file_bind; [|intros ?]);
        try apply keeps_file_lift; apply keeps_file_ret.
    + destruct a1; [|exact IH].
      repeat (apply keeps_file_bind; [|intros ?]);
        try apply keeps_file_lift; try apply keeps_file_ret;
        try apply keeps_file_tell; apply keeps_file_call_update.
Qed.

Lemma keeps_file_process_component m repo :
  keeps_file (process_component m repo).
Proof.
  unfold process_component.
  apply keeps_file_bind; [apply keeps_file_lift|intros has_sha].
  apply keeps_file_bind.
  { destruct has_sha; [apply keeps_file_lift|apply keeps_file_ret]. }
  intros tracked_. destruct tracked_; [|apply keeps_file_ret].
  apply keeps_file_bind; [apply keeps_file_lift|intros name].
  apply keeps_file_bind; [apply keeps_file_tell|intros _].
  apply keeps_file_bind; [apply keeps_file_lift|intros entries].
  apply keeps_file_bind; [apply keeps_file_scan_manifest|intros found].
  destruct found; cbn [negb]; [apply keeps_file_ret|].
  apply keeps_file_bind; [apply keeps_file_lift|intros ?].
  apply keeps_file_tell.
Qed.

Lemma keeps_file_for_components m components :
  keeps_file (for_components m components).
Proof.
  induction components as [|repo rest IH]; cbn [for_components].
  - apply keeps_file_ret.
  - apply keeps_file_bind; [apply keeps_file_process_component|].
    intros _. exact IH.
Qed.

Lemma keeps_file_reconcile config m component :
  keeps_file (reconcile config m component).
Proof.
  unfold reconcile.
  apply keeps_file_bind.
  { destruct (is_dict config); [apply keeps_file_lift|apply keeps_file_ret]. }
  intros components. apply keeps_file_bind.
  { destruct (truthy component); [|apply keeps_file_ret].
    destruct component as [c|]; [|apply keeps_file_ret].
    apply keeps_file_bind; [apply keeps_file_lift|intros l].
    apply keeps_file_bind; [apply keeps_file_lift|intros l'].
    apply keeps_file_ret. }
  intros components'.
  apply keeps_file_bind; [apply keeps_file_lift|intros l].
  apply keeps_file_for_components.
Qed.

(** X12. A configuration that is not a bare list is never changed by a
    run: whatever the manifest and the filter, and whether the run ends
    normally or raises, a file holding a mapping (the ["components"]
    wrapper), a string or a scalar holds the same document after the
    run, up to the order in which the keys are written. *)
Theorem run_keeps_non_list_config (config m : value)
  (component : option string) :
  is_list config = false ->
  same_document config (disk (snd (run config m component))).
Proof.
  intros H. rewrite run_reconcile.
  rewrite (keeps_file_reconcile config m component (mkState config []) H).
  apply alike_same.
Qed.

Lemma run_keeps_non_list_config_witness :
  same_document
    (VDict [("components",
             records [[("repo_name", VStr "a"); ("sha", VStr "111")]])])
    (disk (snd (run
                  (VDict [("components",
                           records [[("repo_name", VStr "a");
                                     ("sha", VStr "111")]])])
                  (records [[("image-name", VStr "a");
                             ("git-sha256", VStr "999")]])
                  None))).
Proof.
  apply (run_keeps_non_list_config
           (VDict [("components",
                    records [[("repo_name", VStr "a");
                              ("sha", VStr "111")]])])
           (records [[("image-name", VStr "a"); ("git-sha256", VStr "999")]])
           None).
  reflexivity.
Defined.

(** ** What a pass writes *)

Lemma pass_disk_written_from ents (recs all : list dict) components :
  (forall c, In c components -> In c all) ->
  forall on_disk,
    Forall2 (written_from ents all) recs on_disk ->
    Forall2 (written_from ents all) recs (pass_disk ents components on_disk).
Proof.
  induction components as [|c rest IH]; intros Hall on_disk H; [exact H|].
  rewrite pass_disk_cons. apply IH; [intros x Hx; apply Hall; now right|].
  eapply Forall2_compose; [|exact H|apply step_disk_pointwise].
  cbv beta. intros r x x' Hrx [->|(e & F & T & ->)]; [exact Hrx|].
  apply first_stale_tracked in F. destruct F as [_ F].
  apply find_some in F. destruct F as [Hin Hst].
  destruct Hrx as [->|(c0 & e0 & Hc0 & He0 & Hs0 & T0 & ->)].
  - right. exists c, e. repeat split; auto. apply Hall. now left.
  - right. exists c, e.
    rewrite patch_target_set_sha in T
      by now apply patch_target_has_sha with (get_field "repo_name" c0).
    rewrite dict_set_overwrite. repeat split; auto. apply Hall. now left.
Qed.

(** X13. What a run writes: over a bare list of records a run raises
    nothing, and the list of records it leaves in the file is alike the
    one loaded: as many records in the same order, each with the same
    keys, a value differing only under ["sha"], in a record named by a
    processed component, and being then the git-sha256 of a manifest
    entry found stale for that component. *)
Theorem run_writes_manifest_hashes (recs ents : list dict)
  (component : option string) :
  exists written evs,
    run (records recs) (records ents) component
    = (Ok tt, mkState (records written) evs) /\
    alike (sha_of_stale ents (selected component recs))
      (records recs) (records written).
Proof.
  rewrite run_reconcile, reconcile_records.
  eexists. eexists. split; [reflexivity|].
  assert (W : Forall2 (written_from ents (selected component recs)) recs
                (pass_disk ents (selected component recs) recs)).
  { apply pass_disk_written_from; [auto|].
    apply Forall2_same. intros a. now left. }
  apply records_alike.
  eapply Forall2_impl; [|exact W]. cbv beta.
  intros r r' [->|(c & e & Hc & He & Hs & T & ->)].
  - apply alike_same.
  - apply alike_dict_set.
    + now apply patch_target_has_sha with (get_field "repo_name" c).
    + split; [reflexivity|]. exists c, e. auto.
Qed.

(** ** The exceptions of a run *)

Lemma raises_only_ret allowed {A} (a : A) : raises_only allowed (ret a).
Proof. intros st e H. discriminate H. Qed.

Lemma raises_only_tell allowed ev : raises_only allowed (tell ev).
Proof. intros st e H. discriminate H. Qed.

Lemma raises_only_lift allowed {A} (r : result A) :
  fails_only allowed r -> raises_only allowed (lift r).
Proof. intros H st e E. apply H. exact E. Qed.

Lemma raises_only_bind allowed {A B} (c : M A) (k : A -> M B) :
  raises_only allowed c -> (forall a, raises_only allowed (k a)) ->
  raises_only allowed (bind c k).
Proof.
  intros Hc Hk st e. unfold bind.
  pose proof (Hc st) as C.
  destruct (c st) as [[a|e'] st']; cbn [fst] in *.
  - apply Hk.
  - intros E. inversion E; subst. now apply C.
Qed.

Lemma fails_only_py_get v k : fails_only type_or_attribute (py_get v k).
Proof.
  intros e. unfold py_get, py_get_default.
  destruct v; try (intros H; inversion H; reflexivity).
  destruct (dict_lookup k d); discriminate.
Qed.

Lemma fails_only_py_in k v : fails_only type_or_attribute (py_in k v).
Proof.
  intros e. destruct v; cbn [py_in];
    try discriminate; intros H; inversion H; reflexivity.
Qed.

Lemma fails_only_py_iter v : fails_only type_or_attribute (py_iter v).
Proof.
  intros e. destruct v; cbn [py_iter];
    try discriminate; intros H; inversion H; reflexivity.
Qed.

Lemma fails_only_filter_components l c :
  fails_only type_or_attribute (filter_components l c).
Proof.
  induction l as [|repo rest IH]; intros e; cbn [filter_components];
    [discriminate|].
  destruct (py_get repo "repo_name") as [name|e'] eqn:G; cbn [rbind].
  - destruct (filter_components rest c) as [rest'|e'']; cbn [rbind];
      [discriminate|].
    intros H. inversion H; subst. now apply IH.
  - intros H. inversion H; subst. now apply (fails_only_py_get _ _ _ G).
Qed.

Lemma raises_only_call_update name new :
  raises_only type_or_attribute (call_update_yaml_field name new).
Proof.
  intros st e. unfold call_update_yaml_field, update_yaml_field.
  destruct (py_iter (disk st)) as [entries|e'] eqn:I; cbn [rbind fst].
  - destruct (update_entries entries name new) as [[es evs]|e''] eqn:U;
      cbn [rbind fst]; [discriminate|].
    intros H. inversion H; subst.
    now rewrite (update_entries_raises _ _ _ _ U).
  - intros H. inversion H; subst. now apply (fails_only_py_iter _ _ I).
Qed.

Lemma raises_only_scan_manifest entries repo :
  raises_only type_or_attribute (scan_manifest entries repo).
Proof.
  induction entries as [|entry rest IH]; cbn [scan_manifest].
  - apply raises_only_ret.
  - repeat (apply raises_only_bind; [|intros ?]);
      try (apply raises_only_lift; apply fails_only_py_get);
      try apply raises_only_ret.
    + destruct (py_eq a a0); [|apply raises_only_ret].
      repeat (apply raises_only_bind; [|intros ?]);
        try (apply raises_only_lift; apply fails_only_py_get);
        apply raises_only_ret.
    + destruct a1; [|exact IH].
      repeat (apply raises_only_bind; [|intros ?]);
        try (apply raises_only_lift; apply fails_only_py_get);
        try apply raises_only_ret; try apply raises_only_tell;
        apply raises_only_call_update.
Qed.

Lemma raises_only_process_component m repo :
  raises_only type_or_attribute (process_component m repo).
Proof.
  unfold process_component.
  apply raises_only_bind;
    [apply raises_only_lift, fails_only_py_in|intros has_sha].
  apply raises_only_bind.
  { destruct has_sha; [apply raises_only_lift, fails_only_py_in
                      |apply raises_only_ret]. }
  intros tracked_. destruct tracked_; [|apply raises_only_ret].
  apply raises_only_bind;
    [apply raises_only_lift, fails_only_py_get|intros name].
  apply raises_only_bind; [apply raises_only_tell|intros _].
  apply raises_only_bind;
    [apply raises_only_lift, fails_only_py_iter|intros entries].
  apply raises_only_bind; [apply raises_only_scan_manifest|intros found].
  destruct found; cbn [negb]; [apply raises_only_ret|].
  apply raises_only_bind;
    [apply raises_only_lift, fails_only_py_get|intros ?].
  apply raises_only_tell.
Qed.

Lemma raises_only_for_components m components :
  raises_only type_or_attribute (for_components m components).
Proof.
  induction components as [|repo rest IH]; cbn [for_components].
  - apply raises_only_ret.
  - apply raises_only_bind; [apply raises_only_process_component|].
    intros _. exact IH.
Qed.

Lemma raises_only_reconcile config m component :
  raises_only type_or_attribute (reconcile config m component).
Proof.
  unfold reconcile.
  apply raises_only_bind.
  { destruct (is_dict config); [|apply raises_only_ret].
    apply raises_only_lift. intros e. unfold py_get_default.
    destruct config; try (intros H; inversion H; reflexivity).
    destruct (dict_lookup "components" d); discriminate. }
  intros components. apply raises_only_bind.
  { destruct (truthy component); [|apply raises_only_ret].
    destruct component as [c|]; [|apply raises_only_ret].
    apply raises_only_bind;
      [apply raises_only_lift, fails_only_py_iter|intros l].
    apply raises_only_bind;
      [apply raises_only_lift, fails_only_filter_components|intros l'].
    apply raises_only_ret. }
  intros components'.
  apply raises_only_bind;
    [apply raises_only_lift, fails_only_py_iter|intros l].
  apply raises_only_for_components.
Qed.

(** X14. The exceptions of the pass: whatever the configuration, the
    manifest and the filter, the part of [main] that goes over the
    components raises nothing but [TypeError] and [AttributeError]; it
    never raises [KeyError] and never exits. *)
Theorem reconcile_raises_type_or_attribute (config m : value)
  (component : option string) (st : state) (e : exn) :
  fst (reconcile config m component st) = Raise e ->
  e = TypeError \/ e = AttributeError.
Proof.
  intros H. apply raises_only_reconcile in H.
  destruct e; try discriminate H; auto.
Qed.

Lemma reconcile_raises_type_or_attribute_witness :
  fst (reconcile
         (records [[("repo_name", VStr "a"); ("sha", VStr "111")]])
         (VList [VStr "a"]) None
         (mkState (records [[("repo_name", VStr "a");
                             ("sha", VStr "111")]]) []))
  = Raise AttributeError /\
  (AttributeError = TypeError \/ AttributeError = AttributeError).
Proof.
  split; [reflexivity|].
  apply (reconcile_raises_type_or_attribute
           (records [[("repo_name", VStr "a"); ("sha", VStr "111")]])
           (VList [VStr "a"]) None
           (mkState (records [[("repo_name", VStr "a");
                               ("sha", VStr "111")]]) [])
           AttributeError).
  reflexivity.
Defined.

(** X15. When [main] exits: [main] ends by [exit] exactly when the
    directory of the clone does not exist or no manifest path is found
    there (none at all, or an empty one), and the code is then 1; once
    the manifest is found, nothing makes [main] exit. *)
Theorem main_exits_iff (path_exists : string -> bool)
  (glob_glob : string -> list string) (read_json_file : string -> value)
  (snapshots_path : string) (component : option string) (st : state)
  (code : Z) :
  fst (main path_exists glob_glob read_json_file snapshots_path component st)
  = Raise (SystemExit code) <->
  code = 1%Z /\
  (path_exists snapshots_path = false \/
   truthy (fetch_latest_manifest glob_glob snapshots_path) = false).
Proof.
  unfold main. unfold bind at 1, load_config at 1.
  destruct (path_exists snapshots_path); cbn [negb].
  - destruct (fetch_latest_manifest glob_glob snapshots_path) as [p|] eqn:F.
    + destruct (truthy (Some p)) eqn:T.
      * split.
        -- intros H. apply raises_only_reconcile in H. discriminate H.
        -- intros [_ [H|H]]; discriminate H.
      * split.
        -- intros H. cbn in H. inversion H. auto.
        -- intros [-> _]. reflexivity.
    + split.
      * intros H. cbn in H. inversion H. auto.
      * intros [-> _]. reflexivity.
  - split.
    + intros H. cbn in H. inversion H. auto.
    + intros [-> _]. reflexivity.
Qed.

(** ** The configuration file *)

Lemma prefix_slash_not_empty o : String.prefix "/" o = true -> o <> "".
Proof. intros H E. subst o. discriminate H. Qed.

(** X16. The [--config] argument: an absolute path is used as it is
    given; a non-empty path is taken under the repository root when it
    exists there, and under the directory of the script when it does not
    exist under the root (whether or not it exists beside the script);
    without the argument, or with an empty one, the file is [config.yaml]
    beside the script. *)
Theorem config_path_choice (path_exists : string -> bool)
  (ROOT_DIR SCRIPT_DIR : string) :
  (forall o, String.prefix "/" o = true ->
             config_path path_exists ROOT_DIR SCRIPT_DIR (Some o) = o) /\
  (forall o, o <> "" ->
             path_exists (os_path_join ROOT_DIR o) = true ->
             config_path path_exists ROOT_DIR SCRIPT_DIR (Some o)
             = os_path_join ROOT_DIR o) /\
  (forall o, o <> "" ->
             path_exists (os_path_join ROOT_DIR o) = false ->
             config_path path_exists ROOT_DIR SCRIPT_DIR (Some o)
             = os_path_join SCRIPT_DIR o) /\
  config_path path_exists ROOT_DIR SCRIPT_DIR None
  = os_path_join SCRIPT_DIR "config.yaml" /\
  config_path path_exists ROOT_DIR SCRIPT_DIR (Some "")
  = os_path_join SCRIPT_DIR "config.yaml".
Proof.
  assert (T : forall o, o <> "" -> truthy (Some o) = true).
  { intros o Hne. unfold truthy.
    destruct (String.eqb o "") eqn:E; [|reflexivity].
    apply String.eqb_eq in E. contradiction. }
  split; [|split; [|split; [|split; reflexivity]]].
  - intros o Ho. unfold config_path.
    rewrite (T o (prefix_slash_not_empty o Ho)).
    unfold os_path_join. rewrite Ho. now destruct (path_exists o).
  - intros o Hne R. unfold config_path. rewrite (T o Hne). now rewrite R.
  - intros o Hne R. unfold config_path. rewrite (T o Hne). now rewrite R.
Qed.

Lemma config_path_choice_witness :
  config_path (fun _ => false) "/repo" "/repo/bundle-generation"
    (Some "/etc/sync.yaml") = "/etc/sync.yaml" /\
  config_path (fun _ => true) "/repo" "/repo/bundle-generation"
    (Some "alt.yaml") = os_path_join "/repo" "alt.yaml" /\
  config_path (fun p => String.eqb p "/repo/bundle-generation/alt.yaml")
    "/repo" "/repo/bundle-generation" (Some "alt.yaml")
  = os_path_join "/repo/bundle-generation" "alt.yaml".
Proof.
  split; [|split].
  - apply (proj1 (config_path_choice (fun _ => false)
                    "/repo" "/repo/bundle-generation")).
    reflexivity.
  - apply (proj1 (proj2 (config_path_choice (fun _ => true)
                           "/repo" "/repo/bundle-generation")));
      [discriminate|reflexivity].
  - apply (proj1 (proj2 (proj2 (config_path_choice
                                  (fun p => String.eqb p
                                     "/repo/bundle-generation/alt.yaml")
                                  "/repo" "/repo/bundle-generation"))));
      [discriminate|reflexivity].
Defined.

(** ** The log of a pass over records of scalar names *)

Lemma existsb_patch_records n n' w on_disk :
  existsb (patch_target n) (patch_records n' w on_disk) =
  existsb (patch_target n) on_disk.
Proof.
  induction on_disk as [|r rest IH]; [reflexivity|].
  cbn [patch_records]. destruct (patch_target n' r) eqn:T; cbn [existsb].
  - now rewrite patch_target_set_sha
      by now apply patch_target_has_sha with n'.
  - now rewrite IH.
Qed.

Lemma existsb_step_disk ents n c on_disk :
  existsb (patch_target n) (step_disk ents c on_disk) =
  existsb (patch_target n) on_disk.
Proof.
  unfold step_disk. destruct (first_stale ents c); [|reflexivity].
  apply existsb_patch_records.
Qed.

Lemma pass_events_report ents components :
  forall on_disk,
    (forall c, In c components -> tracked c = true ->
               existsb (patch_target (get_field "repo_name" c)) on_disk
               = true) ->
    pass_events ents components on_disk = flat_map (report ents) components.
Proof.
  induction components as [|c rest IH]; intros on_disk H; [reflexivity|].
  cbn [pass_events flat_map]. rewrite IH.
  - f_equal. unfold step_events, report.
    destruct (tracked c) eqn:T; [|reflexivity].
    destruct (find (stale_for c) ents) as [e|]; [|reflexivity].
    unfold patch_events. now rewrite (H c (or_introl eq_refl) T).
  - intros x Hx Tx. rewrite existsb_step_disk. apply H; auto. now right.
Qed.

(** X17. The log of a run over a bare list of records whose repo_names
    are scalars is a function of the loaded components and the manifest:
    for each component with both keys, in order, the check, then either
    the absence of mismatch, or the mismatch followed by exactly one
    update record.  So every mismatch found leads to a write: the update
    always finds a record of that name to assign to. *)
Theorem run_log_scalar_names (recs ents : list dict)
  (component : option string) :
  scalar_names recs ->
  fst (run (records recs) (records ents) component) = Ok tt /\
  log (snd (run (records recs) (records ents) component))
  = flat_map (report ents) (selected component recs).
Proof.
  intros Hs. rewrite run_reconcile, reconcile_records. cbn [fst snd log app].
  split; [reflexivity|].
  apply pass_events_report. intros c Hc T.
  apply selected_In in Hc. apply existsb_exists. exists c. split; [exact Hc|].
  rewrite patch_target_tracked, T. cbn [andb].
  apply py_eq_refl_scalar.
  exact (proj1 (Forall_forall _ _) Hs c Hc).
Qed.

Lemma run_log_scalar_names_witness :
  fst (run (records [[("repo_name", VStr "a"); ("sha", VStr "111")];
                     [("repo_name", VStr "b"); ("sha", VStr "222")]])
         (records [[("image-name", VStr "a"); ("git-sha256", VStr "999")];
                   [("image-name", VStr "b"); ("git-sha256", VStr "222")]])
         None) = Ok tt /\
  log (snd (run (records [[("repo_name", VStr "a"); ("sha", VStr "111")];
                          [("repo_name", VStr "b"); ("sha", VStr "222")]])
              (records [[("image-name", VStr "a");
                         ("git-sha256", VStr "999")];
                        [("image-name", VStr "b");
                         ("git-sha256", VStr "222")]])
              None))
  = [LogChecking (VStr "a");
     LogShaMismatch (VStr "a") (VStr "111") (VStr "999");
     LogUpdating (VStr "a");
     LogChecking (VStr "b");
     LogNoMismatch (VStr "b")].
Proof.
  apply (run_log_scalar_names
           [[("repo_name", VStr "a"); ("sha", VStr "111")];
            [("repo_name", VStr "b"); ("sha", VStr "222")]]
           [[("image-name", VStr "a"); ("git-sha256", VStr "999")];
            [("image-name", VStr "b"); ("git-sha256", VStr "222")]]
           None).
  repeat constructor.
Defined.

(** ** The file written by a pass over records of distinct names *)





(** ** The filter on a list with a stray element *)

Lemma filter_components_stray pre bad post c :
  is_dict bad = false ->
  filter_components (map VDict pre ++ bad :: post) c = Raise AttributeError.
Proof.
  intros Hb. induction pre as [|r pre IH]; cbn [map app filter_components].
  - destruct bad; try discriminate Hb; reflexivity.
  - rewrite py_get_dict. cbn [rbind]. rewrite IH. reflexivity.
Qed.

(** X19. The [--component] filter reads the name of every element before
    anything is processed: with a non-empty component name, a list
    configuration holding one element that is not a mapping makes the run
    raise [AttributeError] at once, nothing checked, nothing written,
    wherever the element stands and however stale the records before it
    are. *)
Theorem run_filter_stray_element (pre : list dict) (bad : value)
  (post : list value) (m : value) (c : string) :
  c <> "" ->
  is_dict bad = false ->
  run (VList (map VDict pre ++ bad :: post)) m (Some c)
  = (Raise AttributeError,
     mkState (VList (map VDict pre ++ bad :: post)) []).
Proof.
  intros Hc Hb. rewrite run_reconcile. unfold reconcile. cbn [is_dict].
  unfold bind at 1, ret at 1. cbn [truthy].
  destruct (String.eqb c "") eqn:E; [apply String.eqb_eq in E; contradiction|].
  cbn [negb]. unfold bind at 1. unfold bind at 1, lift at 1.
  cbn [py_iter]. unfold bind at 1, lift at 1.
  now rewrite filter_components_stray.
Qed.

Lemma run_filter_stray_element_witness :
  run (VList (map VDict [[("repo_name", VStr "a"); ("sha", VStr "111")]] ++
              VStr "note" :: []))
      (records [[("image-name", VStr "a"); ("git-sha256", VStr "999")]])
      (Some "a")
  = (Raise AttributeError,
     mkState
       (VList (map VDict [[("repo_name", VStr "a"); ("sha", VStr "111")]] ++
               VStr "note" :: []))
       []).
Proof.
  apply (run_filter_stray_element
           [[("repo_name", VStr "a"); ("sha", VStr "111")]]
           (VStr "note") []
           (records [[("image-name", VStr "a"); ("git-sha256", VStr "999")]])
           "a").
  - discriminate.
  - reflexivity.
Defined.

(** ** A pass over a wrapper *)

Lemma call_update_wrapper (wrapper : dict) name new lg :
  Forall (fun k => is_substring "repo_name" k = false) (dict_keys wrapper) ->
  call_update_yaml_field name new (mkState (VDict wrapper) lg)
  = (Ok tt, mkState (VDict wrapper) lg).
Proof.
  intros Hk. unfold call_update_yaml_field, update_yaml_field, save_yaml.
  cbn [disk py_iter rbind]. rewrite update_entries_keys by exact Hk.
  cbn [rbind fst snd patched_document log]. now rewrite app_nil_r.
Qed.

Lemma for_components_wrapper (wrapper : dict) ents components :
  Forall (fun k => is_substring "repo_name" k = false) (dict_keys wrapper) ->
  forall lg,
    for_components (records ents) (map VDict components)
      (mkState (VDict wrapper) lg)
    = (Ok tt,
       mkState (VDict wrapper)
         (lg ++ flat_map (comparison_events ents) components)).
Proof.
  intros Hk. induction components as [|r rest IH]; intros lg.
  - cbn. now rewrite app_nil_r.
  - cbn [map for_components flat_map]. unfold bind at 1.
    assert (P : process_component (records ents) (VDict r)
                  (mkState (VDict wrapper) lg)
                = (Ok tt, mkState (VDict wrapper)
                            (lg ++ comparison_events ents r))).
    { unfold comparison_events. destruct (tracked r) eqn:T.
      - rewrite process_component_tracked by exact T.
        unfold records at 1. cbn [py_iter]. unfold bind at 1, lift at 1.
        unfold bind at 1. rewrite scan_manifest_records.
        destruct (find (stale_for r) ents) as [e|].
        + unfold bind at 1. unfold logging. cbn [disk log].
          rewrite call_update_wrapper by exact Hk.
          unfold ret. cbn [negb]. now rewrite <- !app_assoc.
        + cbn [negb]. rewrite py_get_dict.
          unfold bind, lift, tell, logging. cbn [disk log].
          now rewrite <- !app_assoc.
      - rewrite process_component_untracked by exact T.
        now rewrite app_nil_r. }
    rewrite P, IH. now rewrite app_assoc.
Qed.

(** X20. A run over a ["components"] wrapper (none of whose keys contains
    the text [repo_name]) reports and does not patch: it raises nothing,
    logs for the records under ["components"] the same checks and
    mismatches as for the bare list of those records, logs no update, and
    leaves in the file the same document, up to the order in which the
    keys are written. *)
Theorem run_wrapper_reports_only (wrapper : dict) (recs ents : list dict)
  (component : option string) :
  Forall (fun k => is_substring "repo_name" k = false) (dict_keys wrapper) ->
  dict_lookup "components" wrapper = Some (records recs) ->
  fst (run (VDict wrapper) (records ents) component) = Ok tt /\
  log (snd (run (VDict wrapper) (records ents) component))
  = flat_map (comparison_events ents) (selected component recs) /\
  same_document (VDict wrapper)
    (disk (snd (run (VDict wrapper) (records ents) component))).
Proof.
  intros Hk Hc.
  assert (E : run (VDict wrapper) (records ents) component
              = (Ok tt,
                 mkState (VDict wrapper)
                   (flat_map (comparison_events ents)
                      (selected component recs)))).
  { rewrite run_reconcile. unfold reconcile. cbn [is_dict].
    unfold py_get_default. rewrite Hc.
    change (reconcile (records recs) (records ents) component
              (mkState (VDict wrapper) [])
            = (Ok tt,
               mkState (VDict wrapper)
                 (flat_map (comparison_events ents)
                    (selected component recs)))).
    rewrite reconcile_bare_list.
    now rewrite for_components_wrapper by exact Hk. }
  rewrite E. cbn [fst snd log disk].
  repeat split. apply alike_same.
Qed.

Lemma run_wrapper_reports_only_witness :
  fst (run (VDict [("components",
                    records [[("repo_name", VStr "a"); ("sha", VStr "111")]])])
         (records [[("image-name", VStr "a"); ("git-sha256", VStr "999")]])
         None) = Ok tt /\
  log (snd (run (VDict [("components",
                         records [[("repo_name", VStr "a");
                                   ("sha", VStr "111")]])])
              (records [[("image-name", VStr "a");
                         ("git-sha256", VStr "999")]])
              None))
  = [LogChecking (VStr "a");
     LogShaMismatch (VStr "a") (VStr "111") (VStr "999")] /\
  same_document
    (VDict [("components",
             records [[("repo_name", VStr "a"); ("sha", VStr "111")]])])
    (disk (snd (run (VDict [("components",
                             records [[("repo_name", VStr "a");
                                       ("sha", VStr "111")]])])
                  (records [[("image-name", VStr "a");
                             ("git-sha256", VStr "999")]])
                  None))).
Proof.
  apply (run_wrapper_reports_only
           [("components",
             records [[("repo_name", VStr "a"); ("sha", VStr "111")]])]
           [[("repo_name", VStr "a"); ("sha", VStr "111")]]
           [[("image-name", VStr "a"); ("git-sha256", VStr "999")]]
           None).
  - repeat constructor.
  - reflexivity.
Defined.

(** ** From the fetcher to the pass *)

Lemma last_or_none_snoc (pre : list string) (p : string) :
  last_or_none (pre ++ [p]) = Some p.
Proof.
  unfold last_or_none. rewrite last_last.
  destruct pre; reflexivity.
Qed.

(** X21. Which manifest is read: when the directory of the clone exists
    and [glob.glob] returns at least one path, the last of them non-empty,
    [main] reads the manifest at that last path, whatever the paths before
    it, and its outcome is that of the pass over the configuration loaded
    from the file and that manifest. *)
Theorem main_reads_last_match (path_exists : string -> bool)
  (glob_glob : string -> list string) (read_json_file : string -> value)
  (snapshots_path : string) (component : option string) (st : state)
  (pre : list string) (p : string) :
  path_exists snapshots_path = true ->
  glob_glob (os_path_join snapshots_path "manifest.json") = pre ++ [p] ->
  p <> "" ->
  main path_exists glob_glob read_json_file snapshots_path component st
  = reconcile (disk st) (read_json_file p) component st.
Proof.
  intros He Hg Hp. apply main_reconcile; auto.
  unfold fetch_latest_manifest. rewrite Hg. apply last_or_none_snoc.
Qed.

Lemma main_reads_last_match_witness :
  main (fun _ => true)
    (fun _ => ["tmp/repo/./old.json"] ++ ["tmp/repo/./manifest.json"])
    (fun p => if String.eqb p "tmp/repo/./manifest.json"
              then records [[("image-name", VStr "a");
                             ("git-sha256", VStr "999")]]
              else VNone)
    "tmp/repo/." None
    (mkState (records [[("repo_name", VStr "a"); ("sha", VStr "111")]]) [])
  = reconcile
      (records [[("repo_name", VStr "a"); ("sha", VStr "111")]])
      (records [[("image-name", VStr "a"); ("git-sha256", VStr "999")]])
      None
      (mkState (records [[("repo_name", VStr "a"); ("sha", VStr "111")]]) []).
Proof.
  apply (main_reads_last_match (fun _ => true)
           (fun _ => ["tmp/repo/./old.json"] ++ ["tmp/repo/./manifest.json"])
           (fun p => if String.eqb p "tmp/repo/./manifest.json"
                     then records [[("image-name", VStr "a");
                                    ("git-sha256", VStr "999")]]
                     else VNone)
           "tmp/repo/." None
           (mkState (records [[("repo_name", VStr "a"); ("sha", VStr "111")]])
              [])
           ["tmp/repo/./old.json"] "tmp/repo/./manifest.json").
  - reflexivity.
  - reflexivity.
  - discriminate.
Defined.
